(** * Cognitive honeypot: request classification, risk scoring and
      adaptive deception

    A shallow embedding of [web_honeypot.py], [genai_engine.py] and
    [ssh_honeypot.py], and the properties of the specification that can be
    settled on it.

    Conventions of the embedding.
    - Python [str] values are Rocq [string]s read as sequences of code
      points below 256 (Latin-1); the builtins [str.lower], [str.strip],
      [str.isspace] and the classes [\w], [\s] of [re] are written out on
      that range.
    - Python integers are [Z].
    - The module-level [failed_attempts] dictionary is a [gmap string Z]
      threaded through the functions that read or write it; a missing key
      reads as 0, as with [defaultdict(int)].
    - [random] is a tape of natural numbers, one entry consumed per call of
      the generator's [_randbelow]; readings of the wall clock are inputs.
    - An exception that escapes a function is an explicit outcome. *)

From Stdlib Require Import ZArith NArith Ascii String List Bool Lia DecimalString.
From stdpp Require Import base option list gmap strings.
Import ListNotations.

Local Open Scope string_scope.
Local Open Scope Z_scope.

(** ** Python strings on the Latin-1 range *)
Module Text.

Definition code (c : ascii) : N := N_of_ascii c.

Definition between (lo hi : N) (c : ascii) : bool :=
  ((lo <=? code c) && (code c <=? hi))%N.

(** [str.isspace] on one character: the code points below 256 whose
    bidirectional class is WS, B or S, or whose category is Zs. *)
Definition isspace (c : ascii) : bool :=
  between 9 13 c || between 28 32 c || (code c =? 133)%N || (code c =? 160)%N.

(** [str.isalnum] on one character: letters, decimal digits, and the
    characters with a digit or numeric value. *)
Definition isalnum (c : ascii) : bool :=
  between 48 57 c || between 65 90 c || between 97 122 c
  || (code c =? 170)%N || between 178 179 c || (code c =? 181)%N
  || between 185 186 c || between 188 190 c
  || between 192 214 c || between 216 246 c || between 248 255 c.

(** The class [\w] of [re] for [str] patterns. *)
Definition isword (c : ascii) : bool := isalnum c || (code c =? 95)%N.

(** [str.lower] on one character. *)
Definition lower_char (c : ascii) : ascii :=
  if between 65 90 c || (between 192 222 c && negb (code c =? 215)%N)
  then ascii_of_N (code c + 32)
  else c.

Fixpoint lower (s : string) : string :=
  match s with
  | EmptyString => EmptyString
  | String c s' => String (lower_char c) (lower s')
  end.

(** [s.startswith(p)] *)
Fixpoint startswith (p s : string) : bool :=
  match p, s with
  | EmptyString, _ => true
  | String a p', String b s' => Ascii.eqb a b && startswith p' s'
  | String _ _, EmptyString => false
  end.

(** [p in s] for strings: [p] occurs in [s] as a substring. *)
Fixpoint contains (p s : string) : bool :=
  startswith p s ||
  match s with
  | EmptyString => false
  | String _ s' => contains p s'
  end.

(** [s.lstrip()], [s.rstrip()] and [s.strip()] with no argument. *)
Fixpoint lstrip (s : string) : string :=
  match s with
  | String c s' => if isspace c then lstrip s' else s
  | EmptyString => EmptyString
  end.

Fixpoint rstrip (s : string) : string :=
  match s with
  | EmptyString => EmptyString
  | String c s' =>
      match rstrip s' with
      | EmptyString => if isspace c then EmptyString else String c EmptyString
      | t => String c t
      end
  end.

Definition strip (s : string) : string := rstrip (lstrip s).

(** [s.partition(sep)] for a one-character separator: the text before the
    first occurrence, whether the separator was found, and the text after
    it.  When the separator is absent Python returns [(s, "", "")]. *)
Fixpoint partition (sep : ascii) (s : string) : string * bool * string :=
  match s with
  | EmptyString => (EmptyString, false, EmptyString)
  | String c s' =>
      if Ascii.eqb c sep then (EmptyString, true, s')
      else let '(h, found, t) := partition sep s' in (String c h, found, t)
  end.

(** [sep.join(l)] *)
Fixpoint join (sep : string) (l : list string) : string :=
  match l with
  | [] => EmptyString
  | [x] => x
  | x :: l' => x ++ sep ++ join sep l'
  end.

Definition newline : ascii := "010"%char.
Definition carriage_return : ascii := "013"%char.
Definition double_quote : ascii := "034"%char.
Definition nl : string := String newline EmptyString.

End Text.

(** ** The fragment of Python's [re] used by the signature lists *)
Module Re.

Import Text.

(** Pattern syntax.  [Star] stands for both [r*] and the lazy [r*?]: the
    two differ in which match is reported, not in whether one exists, and
    the source only tests the result of [re.search] for truth. *)
Inductive regex : Type :=
| Str (s : string)        (* a run of literal characters *)
| Dot                     (* [.]: any character except a newline *)
| Space                   (* [\s] *)
| Digit                   (* [\d] on the Latin-1 range *)
| WordBoundary            (* [\b] *)
| Cat (r1 r2 : regex)
| Alt (r1 r2 : regex)
| Opt (r : regex)         (* [r?] *)
| Star (r : regex).

(** [r+] *)
Definition Plus (r : regex) : regex := Cat r (Star r).

(** [\b] holds between a word character and a non-word character, the two
    ends of the text counting as non-word. *)
Definition at_boundary (prev : option ascii) (s : string) : bool :=
  let before := match prev with Some c => isword c | None => false end in
  let after := match s with String c _ => isword c | EmptyString => false end in
  xorb before after.

Fixpoint drop_prefix (p s : string) : option (option ascii * string) :=
  match p, s with
  | EmptyString, _ => Some (None, s)
  | String a p', String b s' =>
      if Ascii.eqb a b then
        match drop_prefix p' s' with
        | Some (None, t) => Some (Some b, t)
        | r => r
        end
      else None
  | String _ _, EmptyString => None
  end.

Definition one_char (p : ascii -> bool) (s : string)
    (k : option ascii -> string -> bool) : bool :=
  match s with
  | String c s' => p c && k (Some c) s'
  | EmptyString => false
  end.

(** Backtracking matcher in continuation-passing style: [matches r prev s k]
    holds when some way of matching [r] at the front of [s] (the character
    before it being [prev]) leaves a rest accepted by [k].  An iteration of
    [Star] that consumes nothing is not repeated. *)
Fixpoint matches (r : regex) (prev : option ascii) (s : string)
    (k : option ascii -> string -> bool) {struct r} : bool :=
  match r with
  | Str p =>
      match drop_prefix p s with
      | Some (Some c, t) => k (Some c) t
      | Some (None, t) => k prev t
      | None => false
      end
  | Dot => one_char (fun c => negb (Ascii.eqb c newline)) s k
  | Space => one_char isspace s k
  | Digit => one_char (between 48 57) s k
  | WordBoundary => at_boundary prev s && k prev s
  | Cat r1 r2 => matches r1 prev s (fun prev' s' => matches r2 prev' s' k)
  | Alt r1 r2 => matches r1 prev s k || matches r2 prev s k
  | Opt r1 => matches r1 prev s k || k prev s
  | Star r1 =>
      (fix iter (fuel : nat) (prev : option ascii) (s : string) : bool :=
         match fuel with
         | O => k prev s
         | S fuel' =>
             matches r1 prev s
               (fun prev' s' =>
                  (String.length s' <? String.length s)%nat && iter fuel' prev' s')
             || k prev s
         end) (String.length s) prev s
  end.

Fixpoint search_from (r : regex) (prev : option ascii) (s : string) : bool :=
  matches r prev s (fun _ _ => true) ||
  match s with
  | EmptyString => false
  | String c s' => search_from r (Some c) s'
  end.

(** [re.search(pat, s)] tested for truth: the pattern matches somewhere. *)
Definition search (r : regex) (s : string) : bool := search_from r None s.

(** [re.fullmatch(pat, s)] tested for truth. *)
Definition fullmatch (r : regex) (s : string) : bool :=
  matches r None s (fun _ s' => match s' with EmptyString => true | _ => false end).

End Re.

(** ** Python's [random] module *)
Module Rand.

(** The generator: the successive raw outputs it will produce. *)
Definition tape : Type := nat -> N.

Definition advance (t : tape) : tape := fun i => t (S i).

(** [_randbelow(n)]: an integer in [0, n), for n > 0. *)
Definition randbelow (n : N) (t : tape) : N * tape :=
  ((t O mod n)%N, advance t).

(** [random.randint(a, b)] is [a + _randbelow(b - a + 1)]. *)
Definition randint (a b : N) (t : tape) : N * tape :=
  let '(r, t) := randbelow (b - a + 1) t in ((a + r)%N, t).

(** [random.choice(seq)] is [seq[_randbelow(len(seq))]]; [d] stands in for
    the [IndexError] of an empty sequence, which no caller passes. *)
Definition choice {A} (d : A) (seq : list A) (t : tape) : A * tape :=
  let '(i, t) := randbelow (N.of_nat (length seq)) t in
  (nth (N.to_nat i) seq d, t).

(** [random.sample(population, k)] for a population of at most 21
    elements, where CPython selects from a copy of the population: the
    i-th result is [pool[j]] for [j = _randbelow(n - i)], and the last
    non-selected element is moved into the vacancy. *)
Fixpoint sample_loop {A} (d : A) (pool : list A) (n k : nat) (t : tape)
    : list A * tape :=
  match k with
  | O => ([], t)
  | S k' =>
      let '(j, t) := randbelow (N.of_nat n) t in
      let x := nth (N.to_nat j) pool d in
      let pool := <[N.to_nat j := nth (n - 1) pool d]> pool in
      let '(rest, t) := sample_loop d pool (n - 1) k' t in
      (x :: rest, t)
  end.

Definition sample {A} (d : A) (population : list A) (k : nat) (t : tape)
    : list A * tape :=
  sample_loop d population (length population) k t.

End Rand.

(** ** genai_engine.py *)
Module GenAI.

Import Text Rand.

Definition FAKE_FILES : list string :=
  [ "users.db"; "config.yaml"; "backup.sql"; "secrets.txt";
    "logs.txt"; "app.py"; "admin_panel.php" ].

Definition FAKE_PASSWORDS : list string :=
  [ "P@ssw0rd!"; "admin123"; "changeme"; "root@123"; "welcome1" ].

Definition str_of_N (n : N) : string :=
  NilEmpty.string_of_uint (N.to_uint n).

(** [now] is the text of [datetime.now(UTC).isoformat()]. *)
Definition juicy_secrets (now : string) (t : tape) : string * tape :=
  let '(pass, t) := choice "" FAKE_PASSWORDS t in
  let '(key, t) := randint 1000000 9999999 t in
  let '(secret, t) := randint 10000000 99999999 t in
  (nl ++ "# Leaked Secrets (FAKE)" ++ nl
      ++ "DB_USER=admin" ++ nl
      ++ "DB_PASS=" ++ pass ++ nl
      ++ "API_KEY=sk-" ++ str_of_N key ++ nl
      ++ "AWS_SECRET=AKIA" ++ str_of_N secret ++ nl
      ++ "LAST_ROTATED=" ++ now ++ nl, t).

Definition fake_ls (t : tape) : string * tape :=
  let '(k, t) := randint 3 (N.of_nat (length FAKE_FILES)) t in
  let '(files, t) := sample "" FAKE_FILES (N.to_nat k) t in
  (join nl files, t).

Definition errors : list string :=
  [ "Permission denied."; "Access denied."; "Internal server error.";
    "Invalid request."; "Operation failed." ].

Definition fake_error (t : tape) : string * tape := choice "" errors t.

Definition fake_account_locked : string :=
  "Account temporarily locked due to too many failed attempts.".

Definition fake_admin_page (t : tape) : string * tape :=
  let '(day, t) := randint 1 28 t in
  let '(month, t) := randint 1 9 t in
  (nl ++ "<h2>Admin Dashboard</h2>" ++ nl
      ++ "<p>Status: OK</p>" ++ nl
      ++ "<p>Active Users: admin, backup, service</p>" ++ nl
      ++ "<p>Last Backup: " ++ str_of_N day ++ "/0" ++ str_of_N month
      ++ "/2026</p>" ++ nl, t).

Definition generate_response (attack_type : string) (risk_score : Z)
    (path : string) (now : string) (t : tape) : string * tape :=
  let attack_type :=
    match attack_type with EmptyString => "Normal" | _ => attack_type end in
  let low_risk t :=
    if contains "Scanner" attack_type then fake_ls t
    else if contains "SQLi" attack_type || contains "XSS" attack_type
    then fake_error t
    else if contains "admin" (lower path) then fake_admin_page t
    else fake_error t in
  if 5 <=? risk_score then
    if contains "Scanner" attack_type || contains "SQLi" attack_type
       || contains "XSS" attack_type
    then juicy_secrets now t
    else if contains "Bruteforce" attack_type then (fake_account_locked, t)
    else low_risk t
  else low_risk t.

End GenAI.

(** ** web_honeypot.py: signature lists and matchers *)
Module Web.

Import Text Re.

Definition SQLI_PATTERNS : list regex :=
  [ Cat (Alt (Cat WordBoundary (Cat (Str "or") WordBoundary))
             (Cat WordBoundary (Cat (Str "and") WordBoundary)))
        (Cat (Star Dot) (Alt (Str "=") (Str "like")));
    Cat (Str "union") (Cat (Star Dot) (Str "select"));
    Cat (Str "select") (Cat (Star Dot) (Str "from"));
    Cat (Str "drop") (Cat (Plus Space) (Str "table"));
    Str "'--";
    Str (String double_quote "--");
    Str ";--" ].

Definition XSS_PATTERNS : list regex :=
  [ Cat (Str "<script") (Cat (Star Dot) (Str ">"));
    Str "javascript:";
    Str "onerror=";
    Str "onload=" ].

Definition is_sqli (payload : string) : bool :=
  let payload := lower payload in
  existsb (fun pat => search pat payload) SQLI_PATTERNS.

Definition is_xss (payload : string) : bool :=
  let payload := lower payload in
  existsb (fun pat => search pat payload) XSS_PATTERNS.


(** *** Process state *)

(** A number stored in an event: the literal 0 or a converted float. *)
Inductive number (F : Type) : Type :=
| Int (z : Z)
| Float (f : F).
Arguments Int {F} z.
Arguments Float {F} f.

(** The dictionary written by the handlers, one per interaction.  Keys a
    handler does not set are [None]. *)
Record event (F : Type) : Type := Event {
  ev_time : string;
  ev_ip : string;
  ev_country : string;
  ev_lat : number F;
  ev_lon : number F;
  ev_user_agent : string;
  ev_path : string;
  ev_method : string;
  ev_username : option string;
  ev_password : option string;
  ev_data : option string;
  ev_risk_score : Z;
  ev_tags : list string
}.
Arguments Event {F}.
Arguments ev_risk_score {F}.
Arguments ev_tags {F}.
Arguments ev_path {F}.
Arguments ev_ip {F}.

(** What the process carries from one request to the next: the
    [failed_attempts] counters, the lines appended to [LOG_FILE] (oldest
    first) and the random generator. *)
Record state (F : Type) : Type := State {
  failed_attempts : gmap string Z;
  log : list (event F);
  rng : Rand.tape
}.
Arguments State {F}.
Arguments failed_attempts {F}.
Arguments log {F}.
Arguments rng {F}.

(** [failed_attempts[ip]] read through [defaultdict(int)]. *)
Definition attempts (fa : gmap string Z) (ip : string) : Z :=
  default 0 (fa !! ip).

(** The decoded HTTP request as the handlers read it. *)
Record request : Type := Request {
  method : string;
  path : string;
  remote_addr : string;
  headers : gmap string string;
  form : gmap string string;
  body : string
}.

(** [d.get(key, default)] *)
Definition get (key default : string) (d : gmap string string) : string :=
  match d !! key with Some v => v | None => default end.

(** What a view does: return content and a status, or let an exception
    escape. *)
Inductive outcome : Type :=
| Returned (content : string) (status : Z)
| Raised (exception : string).

Definition ADMIN_PATHS : list string := [ "/admin"; "/login" ].

Definition SCANNER_MARKERS : list string :=
  [ "phpmyadmin"; "wp-admin"; ".env"; "config" ].

Definition analyze_request (fa : gmap string Z) (ip path data_str : string)
    : gmap string Z * (Z * list string) :=
  let risk := 0 in
  let tags : list string := [] in
  let '(risk, tags) :=
    if is_sqli data_str then (risk + 5, (tags ++ ["SQLi"])%list) else (risk, tags) in
  let '(risk, tags) :=
    if is_xss data_str then (risk + 5, (tags ++ ["XSS"])%list) else (risk, tags) in
  let '(fa, risk, tags) :=
    if existsb (String.eqb path) ADMIN_PATHS then
      let fa := <[ip := attempts fa ip + 1]> fa in
      if 5 <? attempts fa ip
      then (fa, risk + 3, (tags ++ ["Bruteforce"])%list)
      else (fa, risk, tags)
    else (fa, risk, tags) in
  let '(risk, tags) :=
    if existsb (fun p => contains p (lower path)) SCANNER_MARKERS
    then (risk + 2, (tags ++ ["Scanner"])%list)
    else (risk, tags) in
  let tags := if risk =? 0 then (tags ++ ["Low-Risk"])%list else tags in
  (fa, (risk, tags)).

Definition LOGIN_PAGE : string :=
  let q := String double_quote EmptyString in
  nl ++ "<!DOCTYPE html>" ++ nl
  ++ "<html>" ++ nl
  ++ "<head>" ++ nl
  ++ "    <title>Admin Login</title>" ++ nl
  ++ "</head>" ++ nl
  ++ "<body>" ++ nl
  ++ "    <h2>Admin Panel</h2>" ++ nl
  ++ "    <p>Please login to continue</p>" ++ nl
  ++ "    <form method=" ++ q ++ "POST" ++ q ++ ">" ++ nl
  ++ "        <input type=" ++ q ++ "text" ++ q ++ " name=" ++ q ++ "username"
  ++ q ++ " placeholder=" ++ q ++ "Username" ++ q ++ " required /><br><br>" ++ nl
  ++ "        <input type=" ++ q ++ "password" ++ q ++ " name=" ++ q
  ++ "password" ++ q ++ " placeholder=" ++ q ++ "Password" ++ q
  ++ " required /><br><br>" ++ nl
  ++ "        <button type=" ++ q ++ "submit" ++ q ++ ">Login</button>" ++ nl
  ++ "    </form>" ++ nl
  ++ "</body>" ++ nl
  ++ "</html>" ++ nl.

(** [tags[0]] when the list is non-empty, as [catch_all] picks the attack
    type. *)
Definition primary_tag (tags : list string) : string :=
  match tags with
  | t :: _ => t
  | [] => "Normal"
  end.

(** *** The views *)
Section Views.

(** Python's [float(str)] and Flask's [render_template_string] are taken
    as they come: [py_float s] is the converted value, or [None] when
    [float(s)] raises [ValueError]. *)
Context {F : Type}.
Variable py_float : string -> option F.
Variable render_template_string : string -> string.

(** [float(x) if x != "0" else 0] *)
Definition coordinate (x : string) : option (number F) :=
  if String.eqb x "0" then Some (Int 0) else Float <$> py_float x.

(** Appending to [LOG_FILE] is taken to succeed. *)
Definition log_event (st : state F) (e : event F) : state F :=
  State (failed_attempts st) (log st ++ [e])%list (rng st).

Definition with_attempts (st : state F) (fa : gmap string Z) : state F :=
  State fa (log st) (rng st).

Definition with_rng (st : state F) (t : Rand.tape) : state F :=
  State (failed_attempts st) (log st) t.

Definition index (st : state F) : state F * outcome :=
  (st, Returned "Web Honeypot is running. Try /admin or /login" 200).

(** The views read the wall clock: [timestamp] is the text of
    [datetime.now(UTC).isoformat()] at the start of the view. *)
Definition fake_login (timestamp : string) (st : state F) (req : request)
    : state F * outcome :=
  let ip := get "X-Forwarded-For" (remote_addr req) (headers req) in
  let ua := get "User-Agent" "" (headers req) in
  let country := get "X-Country" "Unknown" (headers req) in
  let lat := get "X-Lat" "0" (headers req) in
  let lon := get "X-Lon" "0" (headers req) in
  if String.eqb (method req) "POST" then
    let username := get "username" "" (form req) in
    let password := get "password" "" (form req) in
    let payload := username ++ " " ++ password in
    let '(fa, (risk, tags)) :=
      analyze_request (failed_attempts st) ip (path req) payload in
    let st := with_attempts st fa in
    match coordinate lat with
    | None => (st, Raised "ValueError")
    | Some lat =>
        match coordinate lon with
        | None => (st, Raised "ValueError")
        | Some lon =>
            let event :=
              Event timestamp ip country lat lon ua (path req) "POST"
                    (Some username) (Some password) None risk tags in
            let st := log_event st event in
            (st, Returned "Invalid credentials. Please try again." 401)
        end
    end
  else
    let '(fa, (risk, tags)) :=
      analyze_request (failed_attempts st) ip (path req) "" in
    let st := with_attempts st fa in
    match coordinate lat with
    | None => (st, Raised "ValueError")
    | Some lat =>
        match coordinate lon with
        | None => (st, Raised "ValueError")
        | Some lon =>
            let event :=
              Event timestamp ip country lat lon ua (path req) "GET"
                    None None None risk tags in
            let st := log_event st event in
            (st, Returned (render_template_string LOGIN_PAGE) 200)
        end
    end.

(** [later] is what the clock shows when [juicy_secrets] reads it, if the
    selector gets that far. *)
Definition catch_all (timestamp later : string) (st : state F)
    (any_path : string) (req : request) : state F * outcome :=
  let ip := get "X-Forwarded-For" (remote_addr req) (headers req) in
  let ua := get "User-Agent" "" (headers req) in
  let country := get "X-Country" "Unknown" (headers req) in
  let lat := get "X-Lat" "0" (headers req) in
  let lon := get "X-Lon" "0" (headers req) in
  let data_str := if String.eqb (method req) "POST" then body req else "" in
  let '(fa, (risk, tags)) :=
    analyze_request (failed_attempts st) ip ("/" ++ any_path) data_str in
  let st := with_attempts st fa in
  match coordinate lat with
  | None => (st, Raised "ValueError")
  | Some lat =>
      match coordinate lon with
      | None => (st, Raised "ValueError")
      | Some lon =>
          let event :=
            Event timestamp ip country lat lon ua ("/" ++ any_path)
                  (method req) None None (Some data_str) risk tags in
          let st := log_event st event in
          let attack_type := primary_tag tags in
          let '(fake_content, t) :=
            GenAI.generate_response attack_type risk ("/" ++ any_path) later
              (rng st) in
          (with_rng st t, Returned fake_content 200)
      end
  end.

End Views.

End Web.




(** ** ssh_honeypot.py: the shell session *)
Module Ssh.

Import Text.

(** What the session does to the outside, in order. *)
Inductive action : Type :=
| Send (data : string)                       (* [chan.send] *)
| LogCommand (time ip command : string)      (* [log_event] of an [ssh_command] *)
| CloseChannel                               (* [chan.close()] *)
| CloseTransport.                            (* [transport.close()] *)

(** What one call of [chan.recv(1024)] yields: some bytes, given by their
    decoding with [errors="ignore"] (which may be empty), no bytes at the
    end of the stream, or an exception.  Writing to the channel and to the
    log file is taken to succeed. *)
Inductive received : Type :=
| Data (decoded : string)
| EndOfStream
| RecvError.

(** How the line loop leaves: the [while] condition fails with this buffer
    left, or [handle_client] returns on an exit keyword. *)
Inductive line_exit : Type :=
| Drained (buffer : string) (clock : nat -> string)
| LoggedOut.

Definition has_line (buffer : string) : bool :=
  contains nl buffer || contains (String carriage_return EmptyString) buffer.

Definition reply (command : string) : string :=
  if String.eqb command "ls" then "config.txt  users.db  backup.sql" ++ nl
  else if String.eqb command "whoami" then "root" ++ nl
  else if String.eqb command "pwd" then "/root" ++ nl
  else "command not found" ++ nl.

(** The inner [while "\n" in buffer or "\r" in buffer] loop.  [fuel] bounds
    the number of iterations; [None] is returned when it runs out. *)
Fixpoint line_loop (fuel : nat) (ip buffer : string) (clock : nat -> string)
    : option (list action * line_exit) :=
  if has_line buffer then
    match fuel with
    | O => None
    | S fuel' =>
        let '(line, _, buffer) := partition newline buffer in
        let command := strip line in
        if String.eqb command "" then
          '(acts, out) ← line_loop fuel' ip buffer clock;
          Some (Send "$ " :: acts, out)
        else
          let logged := LogCommand (clock O) ip command in
          let clock := fun i => clock (S i) in
          if existsb (String.eqb command) ["exit"; "quit"] then
            Some ([logged; Send ("logout" ++ nl); CloseChannel; CloseTransport],
                  LoggedOut)
          else
            '(acts, out) ← line_loop fuel' ip buffer clock;
            Some (logged :: Send (reply command) :: Send "$ " :: acts, out)
    end
  else Some ([], Drained buffer clock).

(** Each iteration removes at least one character from the buffer, so its
    length is fuel enough. *)
Definition process_lines (ip buffer : string) (clock : nat -> string)
    : option (list action * line_exit) :=
  line_loop (String.length buffer) ip buffer clock.

(** Where [handle_client] stands once the given input is used up. *)
Inductive session : Type :=
| Awaiting (buffer : string)     (* blocked in [chan.recv] *)
| Terminated.                    (* [handle_client] has returned *)

(** The outer [while True] loop of [handle_client]. *)
Fixpoint recv_loop (ip buffer : string) (clock : nat -> string)
    (input : list received) : option (list action * session) :=
  match input with
  | [] => Some ([], Awaiting buffer)
  | EndOfStream :: _ => Some ([CloseChannel; CloseTransport], Terminated)
  | RecvError :: _ => Some ([CloseChannel; CloseTransport], Terminated)
  | Data decoded :: input' =>
      '(acts, out) ← process_lines ip (buffer ++ decoded) clock;
      match out with
      | LoggedOut => Some (acts, Terminated)
      | Drained buffer clock =>
          '(acts', s) ← recv_loop ip buffer clock input';
          Some ((acts ++ acts')%list, s)
      end
  end.

(** [handle_client], given whether [transport.start_server] succeeded and
    whether [transport.accept(20)] produced a channel. *)
Definition handle_client (started accepted : bool) (ip : string)
    (clock : nat -> string) (input : list received)
    : option (list action * session) :=
  if negb started then Some ([CloseTransport], Terminated)
  else if negb accepted then Some ([CloseTransport], Terminated)
  else
    '(acts, s) ← recv_loop ip "" clock input;
    Some (Send ("Welcome to Ubuntu 20.04 LTS" ++ nl) :: Send "$ " :: acts, s).

End Ssh.

(** ** Python's [float] on text *)
Module PyFloat.

Import Text Re.

(** The grammar [float()] accepts, after the text is stripped and with
    letter case ignored: an optional sign, then a decimal number with
    optional fraction and exponent (digits may be grouped with single
    underscores), or one of [inf], [infinity], [nan]. *)
Definition digitpart : regex := Cat Digit (Star (Cat (Opt (Str "_")) Digit)).
Definition sign : regex := Opt (Alt (Str "+") (Str "-")).
Definition number : regex :=
  Alt (Cat (Opt digitpart) (Cat (Str ".") digitpart))
      (Cat digitpart (Opt (Str "."))).
Definition exponent : regex := Cat (Str "e") (Cat sign digitpart).
Definition floatvalue : regex :=
  Cat sign (Alt (Cat number (Opt exponent))
                (Alt (Str "infinity") (Alt (Str "inf") (Str "nan")))).

(** The whitespace [float()] strips at both ends. *)
Definition blank (c : ascii) : bool :=
  between 9 13 c || (code c =? 32)%N || (code c =? 133)%N || (code c =? 160)%N.

Fixpoint lstrip_blank (s : string) : string :=
  match s with
  | String c s' => if blank c then lstrip_blank s' else s
  | EmptyString => EmptyString
  end.

Fixpoint rstrip_blank (s : string) : string :=
  match s with
  | EmptyString => EmptyString
  | String c s' =>
      match rstrip_blank s' with
      | EmptyString => if blank c then EmptyString else String c EmptyString
      | t => String c t
      end
  end.

(** [float(s)]: the converted value, stood for by the stripped literal, or
    [None] when Python raises [ValueError]. *)
Definition float (s : string) : option string :=
  let literal := rstrip_blank (lstrip_blank s) in
  if fullmatch floatvalue (lower literal) then Some literal else None.

End PyFloat.

(** ** Vocabulary of the properties *)
Module Reading.

Import Text Rand GenAI Web.

(** The fixed weight of each tag; a string that is no tag weighs nothing. *)
Definition weight (tag : string) : Z :=
  if String.eqb tag "SQLi" then 5
  else if String.eqb tag "XSS" then 5
  else if String.eqb tag "Bruteforce" then 3
  else if String.eqb tag "Scanner" then 2
  else if String.eqb tag "Low-Risk" then 0
  else 0.

Definition total_weight (tags : list string) : Z :=
  fold_right (fun tag acc => weight tag + acc) 0 tags.

(** The tags the risk scorer can produce that the selector knows. *)
Definition KNOWN_TAGS : list string := [ "Scanner"; "SQLi"; "XSS"; "Bruteforce" ].

(** The arm taken when no tag is recognised. *)
Definition no_special_arm (path : string) (t : tape) : string * tape :=
  if contains "admin" (lower path) then fake_admin_page t else fake_error t.

(** One interaction as the risk scorer sees it. *)
Record interaction : Type := Interaction {
  who : string;
  target : string;
  payload : string
}.

Definition on_admin_path (p : string) : bool :=
  existsb (String.eqb p) ADMIN_PATHS.

(** The interactions of a trace that count towards [ip]'s counter. *)
Definition counted (ip : string) (i : interaction) : bool :=
  String.eqb (who i) ip && on_admin_path (target i).

Definition hits (ip : string) (trace : list interaction) : Z :=
  Z.of_nat (length (filter (fun i => counted ip i = true) trace)).

(** [analyze_request] called on each interaction of a trace in turn. *)
Fixpoint analyze_all (fa : gmap string Z) (trace : list interaction)
    : gmap string Z * list (Z * list string) :=
  match trace with
  | [] => (fa, [])
  | i :: rest =>
      let '(fa, r) := analyze_request fa (who i) (target i) (payload i) in
      let '(fa, rs) := analyze_all fa rest in
      (fa, r :: rs)
  end.

(** The requests the application serves, by the view they are routed to. *)
Inductive operation : Type :=
| Index
| FakeLogin (timestamp : string) (req : request)
| CatchAll (timestamp later : string) (any_path : string) (req : request).

(** The identity the views derive from a request. *)
Definition identity (req : request) : string :=
  get "X-Forwarded-For" (remote_addr req) (headers req).

(** Whether an operation is an interaction of [ip] targeting [/admin] or
    [/login]. *)
Definition targets_admin (ip : string) (op : operation) : bool :=
  match op with
  | Index => false
  | FakeLogin _ req => String.eqb (identity req) ip && on_admin_path (path req)
  | CatchAll _ _ any_path req =>
      String.eqb (identity req) ip && on_admin_path ("/" ++ any_path)
  end.

Section Serving.

Context {F : Type}.
Variable py_float : string -> option F.
Variable render_template_string : string -> string.

Definition perform (st : state F) (op : operation) : state F * outcome :=
  match op with
  | Index => index st
  | FakeLogin timestamp req =>
      fake_login py_float render_template_string timestamp st req
  | CatchAll timestamp later any_path req =>
      catch_all py_float timestamp later st any_path req
  end.

(** The state after serving a sequence of requests. *)
Fixpoint serve (st : state F) (ops : list operation) : state F :=
  match ops with
  | [] => st
  | op :: rest => serve (fst (perform st op)) rest
  end.

(** The geolocation headers of a request convert. *)
Definition coordinates_convert (req : request) : Prop :=
  is_Some (coordinate py_float (get "X-Lat" "0" (headers req)))
  /\ is_Some (coordinate py_float (get "X-Lon" "0" (headers req))).

End Serving.

(** Concrete requests used below. *)
Definition noon : string := "2026-01-01T12:00:00+00:00".

Definition quiet_state : state string := State ∅ [] (fun _ => 0%N).

(** Scenario A, with coordinates sent as the traffic simulator does. *)
Definition sqli_login : request :=
  Request "POST" "/admin" "203.0.113.7"
    (<["X-Lat" := "48.85"]> (<["X-Lon" := "2.35"]> ∅))
    (<["username" := "admin' OR '1'='1"]> (<["password" := "test"]> ∅))
    "".

(** A login with a latitude header that is no number. *)
Definition login_with_malformed_latitude : request :=
  Request "POST" "/admin" "203.0.113.7"
    (<["X-Lat" := "abc"]> ∅)
    (<["username" := "admin"]> (<["password" := "test"]> ∅))
    "".

(** A scanner probe with a latitude header that is no number. *)
Definition probe_with_malformed_latitude : request :=
  Request "GET" "/phpmyadmin" "203.0.113.7" (<["X-Lat" := "abc"]> ∅) ∅ "".

(** The commands that end a shell session. *)
Definition EXIT_KEYWORDS : list string := [ "exit"; "quit" ].


(** The logout banner followed by the two closes. *)
Definition logout_sequence : list Ssh.action :=
  [ Ssh.Send ("logout" ++ nl); Ssh.CloseChannel; Ssh.CloseTransport ].



End Reading.

(** ** What a pattern matches, declaratively *)
Module ReMeaning.

Import Text Re.

(** The character before the position reached after reading [w] from a
    position whose previous character was [prev]. *)
Fixpoint last_char (w : string) (prev : option ascii) : option ascii :=
  match w with
  | EmptyString => prev
  | String c w' => last_char w' (Some c)
  end.

(** [derives r prev s prev' s']: the pattern [r] matches from the position
    [(prev, s)], the text [s] preceded by the character [prev], up to the
    position [(prev', s')].  An iteration of [Star] consumes at least one
    character. *)
Inductive derives : regex -> option ascii -> string -> option ascii -> string -> Prop :=
| derives_str p prev s :
    derives (Str p) prev (p ++ s) (last_char p prev) s
| derives_dot c prev s :
    c <> newline -> derives Dot prev (String c s) (Some c) s
| derives_space c prev s :
    isspace c = true -> derives Space prev (String c s) (Some c) s
| derives_digit c prev s :
    between 48 57 c = true -> derives Digit prev (String c s) (Some c) s
| derives_boundary prev s :
    at_boundary prev s = true -> derives WordBoundary prev s prev s
| derives_cat r1 r2 prev s prev1 s1 prev2 s2 :
    derives r1 prev s prev1 s1 -> derives r2 prev1 s1 prev2 s2 ->
    derives (Cat r1 r2) prev s prev2 s2
| derives_alt_l r1 r2 prev s prev' s' :
    derives r1 prev s prev' s' -> derives (Alt r1 r2) prev s prev' s'
| derives_alt_r r1 r2 prev s prev' s' :
    derives r2 prev s prev' s' -> derives (Alt r1 r2) prev s prev' s'
| derives_opt_some r prev s prev' s' :
    derives r prev s prev' s' -> derives (Opt r) prev s prev' s'
| derives_opt_none r prev s :
    derives (Opt r) prev s prev s
| derives_star_stop r prev s :
    derives (Star r) prev s prev s
| derives_star_more r prev s prev1 s1 prev2 s2 :
    derives r prev s prev1 s1 ->
    (String.length s1 < String.length s)%nat ->
    derives (Star r) prev1 s1 prev2 s2 ->
    derives (Star r) prev s prev2 s2.

(** [mid] holds no newline. *)
Definition one_line (mid : string) : Prop := contains nl mid = false.

End ReMeaning.

(** ** What the signature lists look for *)
Module Signatures.

Import Text Re ReMeaning.

(** Every character of [s] satisfies [f]. *)
Fixpoint all_chars (f : ascii -> bool) (s : string) : bool :=
  match s with
  | EmptyString => true
  | String c s' => f c && all_chars f s'
  end.

(** The pattern is found somewhere in the text. *)
Definition found (r : regex) (s : string) : Prop :=
  exists pre rest prev' s',
    s = pre ++ rest /\ derives r (last_char pre None) rest prev' s'.

(** [a], then anything on the same line, then [b]: the pattern [a.*b]. *)
Definition then_on_line (a b l : string) : Prop :=
  exists pre mid post, l = pre ++ a ++ mid ++ b ++ post /\ one_line mid.

(** [a], one or more whitespace characters, then [b]: the pattern [a\s+b]. *)
Definition spaced (a b l : string) : Prop :=
  exists pre ws post,
    l = pre ++ a ++ ws ++ b ++ post /\ ws <> "" /\ all_chars isspace ws = true.

(** The text ends in a word character. *)
Definition ends_in_word (s : string) : bool :=
  match last_char s None with Some c => isword c | None => false end.

(** The text starts with a word character. *)
Definition starts_with_word (s : string) : bool :=
  match s with String c _ => isword c | EmptyString => false end.

(** The word [w] standing alone (not inside a longer word), then anything
    on the same line, then [e]: the pattern [\bw\b.*e]. *)
Definition word_then (w e l : string) : Prop :=
  exists pre mid post,
    l = pre ++ w ++ mid ++ e ++ post
    /\ ends_in_word pre = false
    /\ starts_with_word (mid ++ e ++ post) = false
    /\ one_line mid.

End Signatures.

(** ** Vocabulary for the scorer and the log *)
Module LogTerms.

Import Text Rand GenAI Web Reading.

(** The order in which [analyze_request] runs its checks. *)
Definition CHECK_ORDER : list string := [ "SQLi"; "XSS"; "Bruteforce"; "Scanner" ].

Definition has_scanner_marker (path : string) : bool :=
  existsb (fun p => contains p (lower path)) SCANNER_MARKERS.

(** The text a view hands to [analyze_request]. *)
Definition login_payload (req : request) : string :=
  if String.eqb (method req) "POST"
  then get "username" "" (form req) ++ " " ++ get "password" "" (form req)
  else "".

Definition catch_all_payload (req : request) : string :=
  if String.eqb (method req) "POST" then body req else "".

(** The interaction an operation presents to the scorer, if any. *)
Definition scored_as (op : operation) : option (string * string * string) :=
  match op with
  | Index => None
  | FakeLogin _ req => Some (identity req, path req, login_payload req)
  | CatchAll _ _ any_path req =>
      Some (identity req, "/" ++ any_path, catch_all_payload req)
  end.

(** The request an operation carries, if any. *)
Definition request_of (op : operation) : option request :=
  match op with
  | Index => None
  | FakeLogin _ req => Some req
  | CatchAll _ _ _ req => Some req
  end.

(** An event whose score and tags fit together. *)
Definition well_scored {F} (e : event F) : Prop :=
  ev_risk_score e = total_weight (ev_tags e)
  /\ ev_tags e <> []
  /\ 0 <= ev_risk_score e <= 13.

(** The generator [catch_all] ends in, by what the scorer found. *)
Definition catch_all_arm (path data_str later : string) (t : tape) : string * tape :=
  if is_sqli data_str || is_xss data_str then juicy_secrets later t
  else if has_scanner_marker path then fake_ls t
  else if contains "admin" (lower path) then fake_admin_page t
  else fake_error t.

(** Concrete requests used below. *)
Definition login_as (forwarded_for : string) : operation :=
  FakeLogin noon
    (Request "POST" "/admin" "203.0.113.7"
       (<["X-Forwarded-For" := forwarded_for]> ∅)
       (<["username" := "admin"]> (<["password" := "letmein"]> ∅))
       "").

(** Seven logins from one address, each under another forwarded identity. *)
Definition rotating_logins : list operation :=
  map login_as [ "10.0.0.1"; "10.0.0.2"; "10.0.0.3"; "10.0.0.4";
                 "10.0.0.5"; "10.0.0.6"; "10.0.0.7" ].

Definition probe_with_bad_longitude : request :=
  Request "GET" "/phpmyadmin" "203.0.113.7"
    (<["X-Lat" := "51.1657"]> (<["X-Lon" := "north"]> ∅)) ∅ "".

Definition script_post : request :=
  Request "POST" "/search" "203.0.113.7"
    (<["X-Lat" := "51.1657"]> (<["X-Lon" := "10.4515"]> ∅)) ∅
    "q=<script>alert(1)</script>".

Definition login_page_get : request :=
  Request "GET" "/login" "203.0.113.7" ∅
    (<["username" := "admin' OR '1'='1"]> ∅) "".

End LogTerms.

(** ** The texts of the bait *)
Module BaitTerms.

Import Text Rand GenAI.

(** The leaked-secrets artifact for a given password, key number, secret
    number and clock reading. *)
Definition secrets_text (pass : string) (key secret : N) (now : string) : string :=
  nl ++ "# Leaked Secrets (FAKE)" ++ nl
     ++ "DB_USER=admin" ++ nl
     ++ "DB_PASS=" ++ pass ++ nl
     ++ "API_KEY=sk-" ++ str_of_N key ++ nl
     ++ "AWS_SECRET=AKIA" ++ str_of_N secret ++ nl
     ++ "LAST_ROTATED=" ++ now ++ nl.

(** The admin dashboard for a given day and month of the last backup. *)
Definition dashboard_text (day month : N) : string :=
  nl ++ "<h2>Admin Dashboard</h2>" ++ nl
     ++ "<p>Status: OK</p>" ++ nl
     ++ "<p>Active Users: admin, backup, service</p>" ++ nl
     ++ "<p>Last Backup: " ++ str_of_N day ++ "/0" ++ str_of_N month
     ++ "/2026</p>" ++ nl.

(** The generator after [n] draws. *)
Fixpoint after_draws (n : nat) (t : tape) : tape :=
  match n with
  | O => t
  | S n' => after_draws n' (advance t)
  end.

End BaitTerms.

(** ** Vocabulary for the shell session *)
Module SessionTerms.

Import Text Ssh Reading.

Definition banner : action := Send ("Welcome to Ubuntu 20.04 LTS" ++ nl).
Definition prompt : action := Send "$ ".

(** The part of a trace made by completed lines that are no exit keyword:
    a blank line gets a prompt; a command is logged under the session's
    address, trimmed and non-empty, then answered, then prompted. *)
Inductive turns (ip : string) : list action -> Prop :=
| turns_done : turns ip []
| turns_blank acts :
    turns ip acts -> turns ip (prompt :: acts)
| turns_command time command acts :
    command <> "" ->
    strip command = command ->
    existsb (String.eqb command) EXIT_KEYWORDS = false ->
    turns ip acts ->
    turns ip (LogCommand time ip command :: Send (reply command) :: prompt :: acts).

(** How a trace ends, by where the session stands. *)
Definition ending (ip : string) (s : session) (tail : list action) : Prop :=
  match s with
  | Awaiting buffer => tail = [] /\ has_line buffer = false
  | Terminated =>
      tail = [CloseChannel; CloseTransport]
      \/ exists time command,
           In command EXIT_KEYWORDS
           /\ tail = LogCommand time ip command :: logout_sequence
  end.

(** The text does not start with whitespace. *)
Definition clean_head (s : string) : Prop :=
  match s with String c _ => isspace c = false | EmptyString => True end.

(** Everything a session can write to the channel. *)
Definition SENDABLE : list string :=
  [ "Welcome to Ubuntu 20.04 LTS" ++ nl; "$ "; "logout" ++ nl;
    "config.txt  users.db  backup.sql" ++ nl; "root" ++ nl; "/root" ++ nl;
    "command not found" ++ nl ].

Definition cr : string := String carriage_return EmptyString.

(** No chunk of the input holds a carriage return. *)
Definition no_carriage_return (input : list received) : Prop :=
  Forall (fun x => match x with Data d => contains cr d = false | _ => True end)
         input.

(** The text the session gets to read: the decoded chunks up to the first
    end of stream or receive error, one after the other. *)
Fixpoint heard (input : list received) : string :=
  match input with
  | Data decoded :: input' => decoded ++ heard input'
  | _ => ""
  end.

(** Whether an end of stream or a receive error is read. *)
Fixpoint hangs_up (input : list received) : bool :=
  match input with
  | [] => false
  | Data _ :: input' => hangs_up input'
  | _ => true
  end.

(** Lines, each followed by its newline. *)
Fixpoint unlines (lines : list string) : string :=
  match lines with
  | [] => ""
  | line :: lines' => line ++ nl ++ unlines lines'
  end.

(** The line, trimmed, is an exit keyword. *)
Definition is_exit (line : string) : bool :=
  existsb (String.eqb (strip line)) EXIT_KEYWORDS.

(** What one line that is no exit keyword gets: a blank line a prompt; a
    command its log entry, made at [time], its canned reply and a prompt. *)
Definition turn (ip time line : string) : list action :=
  if String.eqb (strip line) "" then [prompt]
  else [LogCommand time ip (strip line); Send (reply (strip line)); prompt].

(** The turns of the given lines, in order.  Each command reads the clock
    once, a blank line does not. *)
Fixpoint dialogue (ip : string) (clock : nat -> string) (lines : list string)
    : list action :=
  match lines with
  | [] => []
  | line :: lines' =>
      (turn ip (clock O) line
       ++ dialogue ip
            (if String.eqb (strip line) "" then clock else fun i => clock (S i))
            lines')%list
  end.

(** How many of the lines are commands. *)
Fixpoint commands (lines : list string) : nat :=
  match lines with
  | [] => O
  | line :: lines' =>
      if String.eqb (strip line) "" then commands lines' else S (commands lines')
  end.

End SessionTerms.

(** ** ai_classifier.py: weak labels *)
Module Classifier.

(** One cell of the [tags] column of the frame built from the log: a list
    of tags, or something that is no list (a missing value). *)
Inductive cell : Type :=
| TagList (tags : list string)
| NotAList.

(** [x in tags] for a list. *)
Definition member (x : string) (tags : list string) : bool :=
  existsb (String.eqb x) tags.

(** [generate_labels], given [df.get("tags", [])]: the column when the
    frame has one, and the default empty list otherwise. *)
Definition generate_labels (column : option (list cell)) : list string :=
  let label (c : cell) : string :=
    match c with
    | TagList tags =>
        if member "SQLi" tags then "SQLi"
        else if member "XSS" tags then "XSS"
        else if member "Bruteforce" tags then "Bruteforce"
        else if member "Scanner-Probe" tags then "Scanner"
        else "Normal"
    | NotAList => "Normal"
    end in
  match column with
  | Some cells => map label cells
  | None => []
  end.

End Classifier.

(** * Properties *)

(** ** The embedding on concrete inputs *)
Module Examples.

Import Text Re Rand GenAI Web Ssh.

Example sqli_tautology : is_sqli "admin' OR '1'='1 test" = true.
Proof. reflexivity. Qed.

Example sqli_needs_word_boundary : is_sqli "manor = 3" = false.
Proof. reflexivity. Qed.

Example sqli_dot_stops_at_newline : is_sqli ("select *" ++ nl ++ "from t") = false.
Proof. reflexivity. Qed.

Example sqli_drop_table : is_sqli "DROP   TABLE users" = true.
Proof. reflexivity. Qed.

Example xss_script_tag : is_xss "<SCRIPT>alert(1)</script>" = true.
Proof. reflexivity. Qed.

Example nothing_in_empty_text : (is_sqli "", is_xss "") = (false, false).
Proof. reflexivity. Qed.

Example first_admin_get :
  analyze_request ∅ "203.0.113.7" "/admin" ""
  = ({["203.0.113.7" := 1]}, (0, ["Low-Risk"])).
Proof. reflexivity. Qed.

Example sixth_admin_get :
  analyze_request {["203.0.113.7" := 5]} "203.0.113.7" "/admin" ""
  = ({["203.0.113.7" := 6]}, (3, ["Bruteforce"])).
Proof. reflexivity. Qed.

Example scanner_with_script :
  analyze_request ∅ "203.0.113.7" "/wp-admin/setup.php" "<script>x</script>"
  = (∅, (7, ["XSS"; "Scanner"])).
Proof. reflexivity. Qed.

Example listing_of_all_files :
  fst (fake_ls (fun i => nth i [4; 8; 3]%N 0%N))
  = join nl [ "config.yaml"; "secrets.txt"; "users.db"; "logs.txt"; "app.py";
              "backup.sql"; "admin_panel.php" ].
Proof. reflexivity. Qed.

Example bruteforce_at_five_is_locked :
  fst (generate_response "Bruteforce" 8 "/admin" "" (fun _ => 0%N))
  = fake_account_locked.
Proof. reflexivity. Qed.

Example bruteforce_below_five_sees_dashboard :
  generate_response "Bruteforce" 3 "/admin" "" (fun _ => 0%N)
  = fake_admin_page (fun _ => 0%N).
Proof. reflexivity. Qed.

Example float_literals :
  map PyFloat.float [ "51.1657"; "-95.7129"; " 1e3 "; "nan"; "abc"; ""; "1,5" ]
  = [ Some "51.1657"; Some "-95.7129"; Some "1e3"; Some "nan"; None; None; None ].
Proof. reflexivity. Qed.

(** Scenario C: [ls] then [exit]. *)
Example ls_then_exit :
  handle_client true true "203.0.113.7" (fun _ => "t")
    [ Data ("ls" ++ nl); Data ("exit" ++ nl) ]
  = Some ([ Send ("Welcome to Ubuntu 20.04 LTS" ++ nl); Send "$ ";
            LogCommand "t" "203.0.113.7" "ls";
            Send ("config.txt  users.db  backup.sql" ++ nl); Send "$ ";
            LogCommand "t" "203.0.113.7" "exit";
            Send ("logout" ++ nl); CloseChannel; CloseTransport ],
          Terminated).
Proof. reflexivity. Qed.

(** A line split over two reads, a blank line, and a peer that hangs up. *)
Example split_line_then_hangup :
  handle_client true true "203.0.113.7" (fun _ => "t")
    [ Data "who"; Data ("ami" ++ nl ++ "  " ++ nl ++ "pw"); EndOfStream ]
  = Some ([ Send ("Welcome to Ubuntu 20.04 LTS" ++ nl); Send "$ ";
            LogCommand "t" "203.0.113.7" "whoami";
            Send ("root" ++ nl); Send "$ "; Send "$ ";
            CloseChannel; CloseTransport ],
          Terminated).
Proof. reflexivity. Qed.

End Examples.

(** ** Signature matcher *)
Module SignatureFacts.

Import Text Re Web.

Lemma lower_char_idempotent (c : ascii) : lower_char (lower_char c) = lower_char c.
Proof. destruct c as [[] [] [] [] [] [] [] []]; reflexivity. Qed.

Lemma lower_idempotent (s : string) : lower (lower s) = lower s.
Proof.
  induction s as [|c s IH]; simpl; [reflexivity|].
  now rewrite lower_char_idempotent, IH.
Qed.

(** The matchers read their argument only through [lower]. *)
Lemma is_sqli_lower_only (s t : string) : lower s = lower t -> is_sqli s = is_sqli t.
Proof. unfold is_sqli. now intros ->. Qed.

Lemma is_xss_lower_only (s t : string) : lower s = lower t -> is_xss s = is_xss t.
Proof. unfold is_xss. now intros ->. Qed.

(** C8. The signature matcher ([is_sqli], [is_xss]) is a function of the
    text alone and is case-insensitive: its result on a text equals its
    result on the lowercased text, and any two texts that agree up to
    letter case (in particular the same text presented twice) get the same
    result. *)
Theorem signature_matcher_case_insensitive (text : string) :
  (is_sqli (lower text), is_xss (lower text)) = (is_sqli text, is_xss text)
  /\ forall other : string, lower other = lower text ->
       (is_sqli other, is_xss other) = (is_sqli text, is_xss text).
Proof.
  split.
  - f_equal; [apply is_sqli_lower_only | apply is_xss_lower_only];
      apply lower_idempotent.
  - intros other H. f_equal;
      [apply is_sqli_lower_only | apply is_xss_lower_only]; exact H.
Qed.

Lemma signature_matcher_case_insensitive_witness :
  lower "X' Or 1=1 <ScRiPt>" = lower "x' OR 1=1 <script>"
  /\ (is_sqli "X' Or 1=1 <ScRiPt>", is_xss "X' Or 1=1 <ScRiPt>")
     = (is_sqli "x' OR 1=1 <script>", is_xss "x' OR 1=1 <script>")
  /\ (is_sqli "x' OR 1=1 <script>", is_xss "x' OR 1=1 <script>") = (true, true).
Proof.
  split; [reflexivity|]. split.
  - apply (proj2 (signature_matcher_case_insensitive "x' OR 1=1 <script>")).
    reflexivity.
  - reflexivity.
Defined.

End SignatureFacts.

(** ** Risk scorer *)
Module ScorerFacts.

Import Text Re Web Reading.

(** C2. The score returned by [analyze_request] is the sum of the fixed
    weights (SQLi 5, XSS 5, Bruteforce 3, Scanner 2, Low-Risk 0) of exactly
    the tags it returns, whatever the counters, identity, path and payload;
    so it is never negative. *)
Theorem score_is_sum_of_tag_weights
    (fa : gmap string Z) (ip path data_str : string) :
  let '(_, (risk, tags)) := analyze_request fa ip path data_str in
  risk = total_weight tags /\ 0 <= risk.
Proof.
  unfold analyze_request.
  destruct (is_sqli data_str), (is_xss data_str),
    (existsb (String.eqb path) ADMIN_PATHS),
    (existsb (fun p => contains p (lower path)) SCANNER_MARKERS);
    try destruct (5 <? _); vm_compute; split; congruence.
Qed.

End ScorerFacts.

(** ** The random generator *)
Module RandFacts.

Import Rand.

Lemma randbelow_lt (n : N) (t : tape) : (0 < n)%N -> (fst (randbelow n t) < n)%N.
Proof. intros H. unfold randbelow; simpl. apply N.mod_lt. lia. Qed.

Lemma randint_range (a b : N) (t : tape) :
  (a <= b)%N -> (a <= fst (randint a b t) <= b)%N.
Proof.
  intros H. unfold randint.
  pose proof (randbelow_lt (b - a + 1) t) as Hlt.
  destruct (randbelow (b - a + 1) t) as [r t']; simpl in *. lia.
Qed.

Lemma choice_In {A} (d : A) (seq : list A) (t : tape) :
  seq <> [] -> In (fst (choice d seq t)) seq.
Proof.
  intros Hne. unfold choice.
  pose proof (randbelow_lt (N.of_nat (length seq)) t) as Hlt.
  destruct (randbelow _ t) as [i t']; simpl in *.
  apply nth_In. destruct seq; [congruence|]. simpl in *. lia.
Qed.

Lemma lookup_nth {A} (d : A) (l : list A) (i : nat) :
  (i < length l)%nat -> l !! i = Some (nth i l d).
Proof. intros H. destruct (nth_lookup_or_length l i d); [assumption | lia]. Qed.

(** One selection step of [sample]: the first [n] cells of the pool are
    the selected element together with the first [n - 1] cells of the
    updated pool. *)
Lemma sample_step {A} (d : A) (pool : list A) (n j : nat) :
  (j < n)%nat -> (n <= length pool)%nat ->
  Permutation (take n pool)
    (nth j pool d :: take (n - 1) (<[j := nth (n - 1) pool d]> pool)).
Proof.
  intros Hj Hn. destruct n as [|m]; [lia|].
  replace (S m - 1)%nat with m by lia.
  assert (Hm : pool !! m = Some (nth m pool d))
    by (apply lookup_nth; lia).
  rewrite (take_S_r _ _ _ Hm).
  destruct (decide (j = m)) as [->|Hne].
  - rewrite list_insert_id by exact Hm.
    symmetry. apply Permutation_cons_append.
  - assert (Hjm : (j < m)%nat) by lia.
    rewrite take_insert_lt by exact Hjm.
    assert (Hx : take m pool !! j = Some (nth j pool d)).
    { rewrite lookup_take_lt by exact Hjm. apply lookup_nth; lia. }
    rewrite insert_take_drop by (rewrite length_take; lia).
    rewrite <- (take_drop_middle _ _ _ Hx) at 1.
    rewrite <- app_assoc. simpl.
    rewrite <- Permutation_middle.
    rewrite (Permutation_app_comm (take j (take m pool))).
    simpl. rewrite <- app_assoc. simpl.
    rewrite <- Permutation_middle. constructor.
    rewrite Permutation_app_comm. simpl.
    rewrite <- Permutation_middle. reflexivity.
Qed.

(** [sample] returns [k] elements which, with some others, make up the
    first [n] cells of the pool. *)
Lemma sample_loop_spec {A} (d : A) (k : nat) :
  forall (pool : list A) (n : nat) (t : tape),
    (k <= n)%nat -> (n <= length pool)%nat ->
    length (fst (sample_loop d pool n k t)) = k
    /\ exists rest, Permutation (take n pool) (fst (sample_loop d pool n k t) ++ rest).
Proof.
  induction k as [|k IH]; intros pool n t Hk Hn.
  - split; [reflexivity|]. exists (take n pool). reflexivity.
  - change (sample_loop d pool n (S k) t) with
      (let '(j, t) := randbelow (N.of_nat n) t in
       let '(rest, t) :=
         sample_loop d (<[N.to_nat j := nth (n - 1) pool d]> pool) (n - 1) k t in
       (nth (N.to_nat j) pool d :: rest, t)).
    pose proof (randbelow_lt (N.of_nat n) t) as Hlt.
    destruct (randbelow (N.of_nat n) t) as [j t1]; simpl in Hlt.
    specialize (Hlt ltac:(lia)).
    set (pool' := <[N.to_nat j := nth (n - 1) pool d]> pool).
    destruct (IH pool' (n - 1)%nat t1) as [Hlen [rest Hperm]];
      [lia | unfold pool'; rewrite length_insert; lia |].
    destruct (sample_loop d pool' (n - 1) k t1) as [res t2]; simpl in *.
    split; [lia|]. exists rest.
    rewrite (sample_step d pool n (N.to_nat j)) by lia.
    constructor. exact Hperm.
Qed.

Lemma sample_spec {A} (d : A) (population : list A) (k : nat) (t : tape) :
  (k <= length population)%nat -> NoDup population ->
  let result := fst (sample d population k t) in
  length result = k /\ NoDup result /\ (forall x, x ∈ result -> x ∈ population).
Proof.
  intros Hk Hnd. unfold sample.
  destruct (sample_loop_spec d k population (length population) t Hk (le_n _))
    as [Hlen [rest Hperm]].
  rewrite firstn_all in Hperm.
  cbv zeta. split; [exact Hlen|].
  rewrite Hperm in Hnd. apply NoDup_app in Hnd as [Hres _].
  split; [exact Hres|].
  intros x Hx. rewrite Hperm. apply elem_of_app. now left.
Qed.

End RandFacts.

(** ** Deception response selector *)
Module SelectorFacts.

Import Text Rand GenAI RandFacts Reading.

Lemma juicy_secrets_shape (now : string) (t : tape) :
  exists rest, fst (juicy_secrets now t) = String newline rest.
Proof.
  unfold juicy_secrets.
  destruct (choice "" FAKE_PASSWORDS t) as [pass t1].
  destruct (randint 1000000 9999999 t1) as [key t2].
  destruct (randint 10000000 99999999 t2) as [secret t3].
  eexists. reflexivity.
Qed.

Lemma fake_admin_page_shape (t : tape) :
  exists rest, fst (fake_admin_page t) = String newline rest.
Proof.
  unfold fake_admin_page.
  destruct (randint 1 28 t) as [day t1].
  destruct (randint 1 9 t1) as [month t2].
  eexists. reflexivity.
Qed.

Lemma fake_error_in_pool (t : tape) : In (fst (fake_error t)) errors.
Proof. apply choice_In. discriminate. Qed.

(** [fake_ls] lists between 3 and 7 distinct names of [FAKE_FILES], one
    per line. *)
Lemma fake_ls_listing (t : tape) :
  exists files : list string,
    fst (fake_ls t) = join nl files
    /\ (3 <= length files <= 7)%nat
    /\ NoDup files
    /\ (forall f, f ∈ files -> f ∈ FAKE_FILES).
Proof.
  unfold fake_ls.
  pose proof (randint_range 3 (N.of_nat (length FAKE_FILES)) t) as Hk.
  destruct (randint 3 (N.of_nat (length FAKE_FILES)) t) as [k t1].
  simpl in Hk. specialize (Hk ltac:(lia)).
  assert (Hnd : NoDup FAKE_FILES)
    by (apply (bool_decide_unpack (NoDup FAKE_FILES)); vm_compute; exact I).
  assert (Hle : (N.to_nat k <= length FAKE_FILES)%nat) by (simpl; lia).
  destruct (sample_spec "" FAKE_FILES (N.to_nat k) t1 Hle Hnd)
    as [Hlen [Hres Hin]].
  destruct (sample "" FAKE_FILES (N.to_nat k) t1) as [files t2]; simpl in *.
  exists files. repeat split; try assumption; lia.
Qed.

Lemma join_nonempty (sep : string) (files : list string) :
  (0 < length files)%nat -> (forall f, f ∈ files -> f <> "") -> join sep files <> "".
Proof.
  destruct files as [|f files]; simpl; [lia|]. intros _ Hne.
  assert (Hf : f <> "") by (apply Hne; left).
  destruct f as [|c f]; [congruence|].
  destruct files; simpl; discriminate.
Qed.

Lemma fake_ls_nonempty (t : tape) : fst (fake_ls t) <> "".
Proof.
  destruct (fake_ls_listing t) as [files [-> [Hlen [_ Hin]]]].
  apply join_nonempty; [lia|].
  intros f Hf. specialize (Hin f Hf).
  unfold FAKE_FILES in Hin.
  repeat (apply elem_of_cons in Hin as [->|Hin]; [discriminate|]).
  now apply elem_of_nil in Hin.
Qed.

Lemma fake_error_nonempty (t : tape) : fst (fake_error t) <> "".
Proof.
  pose proof (fake_error_in_pool t) as Hin. intros E. rewrite E in Hin.
  simpl in Hin. intuition discriminate.
Qed.

(** Each call of [generate_response] ends in one of the five generators. *)
Lemma generate_response_arms
    (attack_type : string) (risk_score : Z) (path now : string) (t : tape) :
  let r := generate_response attack_type risk_score path now t in
  r = juicy_secrets now t \/ r = (fake_account_locked, t) \/ r = fake_ls t
  \/ r = fake_error t \/ r = fake_admin_page t.
Proof.
  unfold generate_response. cbv zeta.
  repeat match goal with
         | |- context [if ?b then _ else _] => destruct b
         end; tauto.
Qed.

(** C5. For every attack-type string (the empty one included), every
    integer score and every path (the empty one included),
    [generate_response] returns a non-empty string, whatever the random
    generator and the clock yield; being a total function it returns on
    every input. *)
Theorem generate_response_nonempty
    (attack_type : string) (risk_score : Z) (path now : string) (t : tape) :
  fst (generate_response attack_type risk_score path now t) <> "".
Proof.
  destruct (generate_response_arms attack_type risk_score path now t)
    as [-> | [-> | [-> | [-> | ->]]]].
  - destruct (juicy_secrets_shape now t) as [rest ->]. discriminate.
  - discriminate.
  - apply fake_ls_nonempty.
  - apply fake_error_nonempty.
  - destruct (fake_admin_page_shape t) as [rest ->]. discriminate.
Qed.

(** C4, as stated, fails: the selector tests tags with [in], so a string
    that is none of the known tags but contains one, here the joined
    ["SQLi,XSS"] with score 10 on [/search], takes the leaked-credentials
    arm; the content is neither in the error pool nor the admin page. *)
Lemma unknown_tag_takes_special_arm :
  let now := "2026-01-01T00:00:00+00:00" in
  let t : tape := fun _ => 0%N in
  ~ In "SQLi,XSS" KNOWN_TAGS
  /\ contains "admin" (lower "/search") = false
  /\ generate_response "SQLi,XSS" 10 "/search" now t = juicy_secrets now t
  /\ generate_response "SQLi,XSS" 10 "/search" now t <> no_special_arm "/search" t
  /\ ~ In (fst (generate_response "SQLi,XSS" 10 "/search" now t)) errors.
Proof.
  cbv zeta. split; [|split; [|split; [|split]]].
  - simpl. intuition discriminate.
  - reflexivity.
  - reflexivity.
  - vm_compute. discriminate.
  - vm_compute. intuition discriminate.
Qed.

(** C4, amended. For every tag string that contains none of "Scanner",
    "SQLi", "XSS", "Bruteforce" as a substring (the empty string included),
    and for every score and path, [generate_response] takes no special arm:
    it returns the admin-dashboard fragment when the lowercased path
    contains "admin", and otherwise a message of the generic error pool. *)
Theorem unrecognised_tag_falls_through
    (attack_type : string) (risk_score : Z) (path now : string) (t : tape) :
  Forall (fun known => contains known attack_type = false) KNOWN_TAGS ->
  generate_response attack_type risk_score path now t = no_special_arm path t
  /\ (contains "admin" (lower path) = false ->
      In (fst (generate_response attack_type risk_score path now t)) errors).
Proof.
  intros H.
  assert (Hsel : generate_response attack_type risk_score path now t
                 = no_special_arm path t).
  { unfold KNOWN_TAGS in H.
    repeat match goal with
           | H : Forall _ (_ :: _) |- _ => apply Forall_cons in H as [? H]
           end.
    unfold generate_response, no_special_arm.
    destruct attack_type as [|c s].
    - change (contains "Scanner" "Normal") with false.
      change (contains "SQLi" "Normal") with false.
      change (contains "XSS" "Normal") with false.
      change (contains "Bruteforce" "Normal") with false.
      cbv zeta. simpl. now destruct (5 <=? risk_score).
    - cbv zeta.
      repeat match goal with
             | E : contains _ _ = false |- _ => rewrite E; clear E
             end.
      simpl. now destruct (5 <=? risk_score). }
  split; [exact Hsel|].
  intros Hadmin. rewrite Hsel. unfold no_special_arm. rewrite Hadmin.
  apply fake_error_in_pool.
Qed.

Lemma unrecognised_tag_falls_through_witness :
  Forall (fun known => contains known "Port-Scan" = false) KNOWN_TAGS
  /\ generate_response "Port-Scan" 7 "/Admin/users" "" (fun _ => 3%N)
     = fake_admin_page (fun _ => 3%N).
Proof.
  assert (H : Forall (fun known => contains known "Port-Scan" = false) KNOWN_TAGS)
    by (repeat constructor).
  split; [exact H|].
  exact (proj1 (unrecognised_tag_falls_through
                  "Port-Scan" 7 "/Admin/users" "" (fun _ => 3%N) H)).
Defined.

End SelectorFacts.

(** ** Identity counters and the brute-force tag *)
Module CounterFacts.

Import Text Re Web Reading.

Lemma attempts_insert (fa : gmap string Z) (ip other : string) (n : Z) :
  attempts (<[ip := n]> fa) other = if decide (ip = other) then n else attempts fa other.
Proof.
  unfold attempts. rewrite lookup_insert. now destruct (decide (ip = other)).
Qed.

(** [analyze_request] touches the counters only on an admin path, and then
    adds one to the caller's own counter. *)
Lemma analyze_request_counters (fa : gmap string Z) (ip path data_str : string) :
  fst (analyze_request fa ip path data_str)
  = if on_admin_path path then <[ip := attempts fa ip + 1]> fa else fa.
Proof.
  unfold analyze_request, on_admin_path.
  destruct (is_sqli data_str), (is_xss data_str),
    (existsb (String.eqb path) ADMIN_PATHS),
    (existsb (fun p => contains p (lower path)) SCANNER_MARKERS);
    try destruct (5 <? _); reflexivity.
Qed.

Lemma analyze_request_attempts
    (fa : gmap string Z) (ip path data_str other : string) :
  attempts (fst (analyze_request fa ip path data_str)) other
  = attempts fa other
    + (if String.eqb ip other && on_admin_path path then 1 else 0).
Proof.
  rewrite analyze_request_counters.
  destruct (on_admin_path path); rewrite ?andb_false_r, ?andb_true_r; [|lia].
  rewrite attempts_insert.
  destruct (decide (ip = other)) as [->|Hne].
  - now rewrite String.eqb_refl.
  - apply String.eqb_neq in Hne. rewrite Hne. lia.
Qed.

(** The tag is given exactly on an admin path when the caller's counter,
    once incremented, exceeds 5. *)
Lemma analyze_request_bruteforce (fa : gmap string Z) (ip path data_str : string) :
  In "Bruteforce" (snd (snd (analyze_request fa ip path data_str)))
  <-> on_admin_path path = true /\ 5 <= attempts fa ip.
Proof.
  unfold analyze_request, on_admin_path.
  destruct (existsb (String.eqb path) ADMIN_PATHS).
  - rewrite attempts_insert. destruct (decide (ip = ip)); [|congruence].
    destruct (5 <? attempts fa ip + 1) eqn:E;
      [apply Z.ltb_lt in E | apply Z.ltb_ge in E];
      destruct (is_sqli data_str), (is_xss data_str),
        (existsb (fun p => contains p (lower path)) SCANNER_MARKERS);
      simpl; split; intros H;
      try (split; [reflexivity | lia]);
      try (repeat destruct H as [H|H]; try discriminate H; try contradiction);
      try (destruct H; lia); tauto.
  - destruct (is_sqli data_str), (is_xss data_str),
      (existsb (fun p => contains p (lower path)) SCANNER_MARKERS);
      simpl; split; intros H;
      try (repeat destruct H as [H|H]; try discriminate H; try contradiction);
      try (destruct H; discriminate).
Qed.

Lemma hits_cons (ip : string) (i : interaction) (trace : list interaction) :
  hits ip (i :: trace) = (if counted ip i then 1 else 0) + hits ip trace.
Proof.
  unfold hits. rewrite filter_cons.
  destruct (decide (counted ip i = true)) as [E|E].
  - rewrite E. simpl length. lia.
  - apply not_true_is_false in E. rewrite E. lia.
Qed.

Lemma hits_nonneg (ip : string) (trace : list interaction) : 0 <= hits ip trace.
Proof. unfold hits. lia. Qed.

(** After a trace, each counter has grown by the number of its owner's
    interactions on an admin path, whatever the others did. *)
Lemma analyze_all_attempts (trace : list interaction) :
  forall (fa : gmap string Z) (ip : string),
    attempts (fst (analyze_all fa trace)) ip = attempts fa ip + hits ip trace.
Proof.
  induction trace as [|i rest IH]; intros fa ip.
  - unfold hits. simpl. lia.
  - simpl.
    pose proof (analyze_request_attempts fa (who i) (target i) (payload i) ip) as H.
    destruct (analyze_request fa (who i) (target i) (payload i)) as [fa1 r].
    specialize (IH fa1 ip).
    destruct (analyze_all fa1 rest) as [fa2 rs]. simpl in *.
    rewrite IH, H, hits_cons. unfold counted. lia.
Qed.

(** C3. Take an identity whose counter is 0 and let any trace of
    interactions go by, its own and other identities' interleaved.  Its
    next interaction on /admin or /login is its (hits + 1)-th there, and it
    is tagged "Bruteforce" exactly when hits >= 5: the 1st to 5th are not,
    the 6th and every later one is.  The counter equals the identity's own
    hits, so other identities' interactions do not move it; and an
    interaction of another identity is tagged by that identity's own
    counter alone and leaves this identity's counter as it was. *)
Theorem bruteforce_from_sixth_attempt
    (fa : gmap string Z) (ip : string) (before : list interaction)
    (path data_str : string) :
  attempts fa ip = 0 ->
  on_admin_path path = true ->
  let fa' := fst (analyze_all fa before) in
  attempts fa' ip = hits ip before
  /\ (In "Bruteforce" (snd (snd (analyze_request fa' ip path data_str)))
      <-> 5 <= hits ip before)
  /\ forall other p d, other <> ip ->
       attempts (fst (analyze_request fa' other p d)) ip = attempts fa' ip
       /\ (In "Bruteforce" (snd (snd (analyze_request fa' other p d)))
           <-> on_admin_path p = true
               /\ 5 <= attempts fa other + hits other before).
Proof.
  intros Hzero Hadmin fa'.
  assert (Hcount : attempts fa' ip = hits ip before)
    by (unfold fa'; rewrite analyze_all_attempts; lia).
  split; [exact Hcount|]. split.
  - rewrite analyze_request_bruteforce, Hcount. tauto.
  - intros other p d Hne. split.
    + rewrite analyze_request_attempts.
      apply String.eqb_neq in Hne. rewrite Hne. simpl. lia.
    + rewrite analyze_request_bruteforce. unfold fa'.
      now rewrite analyze_all_attempts.
Qed.

(** Scenario D: six GETs of /admin by one identity, with a seventh by
    another. *)
Lemma bruteforce_from_sixth_attempt_witness :
  let a := "203.0.113.7" in
  let b := "198.51.100.2" in
  let five := repeat (Interaction a "/admin" "") 5 in
  attempts ∅ a = 0
  /\ on_admin_path "/admin" = true
  /\ hits a five = 5
  /\ In "Bruteforce" (snd (snd (analyze_request (fst (analyze_all ∅ five)) a "/admin" "")))
  /\ ~ In "Bruteforce" (snd (snd (analyze_request (fst (analyze_all ∅ five)) b "/admin" ""))).
Proof.
  cbv zeta.
  assert (H0 : attempts ∅ "203.0.113.7" = 0) by reflexivity.
  assert (H1 : on_admin_path "/admin" = true) by reflexivity.
  pose proof (bruteforce_from_sixth_attempt ∅ "203.0.113.7"
                (repeat (Interaction "203.0.113.7" "/admin" "") 5)
                "/admin" "" H0 H1) as [_ [Hsix Hother]].
  split; [exact H0|]. split; [exact H1|]. split; [reflexivity|]. split.
  - apply Hsix. vm_compute. discriminate.
  - intros Hb.
    apply (Hother "198.51.100.2" "/admin" "") in Hb; [|discriminate].
    destruct Hb as [_ Hb]. vm_compute in Hb. apply Hb. reflexivity.
Defined.

End CounterFacts.

(** ** The views *)
Module ViewFacts.

Import Text Re Rand GenAI Web Reading CounterFacts SelectorFacts.

(** A payload flagged by [is_sqli] is tagged and scores at least 5. *)
Lemma analyze_request_sqli (fa : gmap string Z) (ip path data_str : string) :
  is_sqli data_str = true ->
  In "SQLi" (snd (snd (analyze_request fa ip path data_str)))
  /\ 5 <= fst (snd (analyze_request fa ip path data_str)).
Proof.
  intros H. unfold analyze_request. rewrite H.
  destruct (is_xss data_str), (existsb (String.eqb path) ADMIN_PATHS),
    (existsb (fun p => contains p (lower path)) SCANNER_MARKERS);
    try destruct (5 <? _); simpl; split; try lia; tauto.
Qed.

Lemma analyze_request_phpmyadmin (fa : gmap string Z) (ip : string) :
  analyze_request fa ip "/phpmyadmin" "" = (fa, (2, ["Scanner"])).
Proof. reflexivity. Qed.

Lemma scanner_below_five_lists (now : string) (t : tape) :
  generate_response "Scanner" 2 "/phpmyadmin" now t = fake_ls t.
Proof. reflexivity. Qed.

Section Views.

Context {F : Type}.
Variable py_float : string -> option F.
Variable render_template_string : string -> string.

Local Abbreviation fake_login := (fake_login py_float render_template_string).
Local Abbreviation catch_all := (catch_all py_float).
Local Abbreviation perform := (perform py_float render_template_string).
Local Abbreviation serve := (serve py_float render_template_string).

(** A POST whose geolocation headers convert is logged and refused. *)
Lemma fake_login_post
    (timestamp : string) (st : state F) (req : request) (lat lon : number F) :
  method req = "POST" ->
  coordinate py_float (get "X-Lat" "0" (headers req)) = Some lat ->
  coordinate py_float (get "X-Lon" "0" (headers req)) = Some lon ->
  let username := get "username" "" (form req) in
  let password := get "password" "" (form req) in
  let r := analyze_request (failed_attempts st) (identity req) (path req)
             (username ++ " " ++ password) in
  fake_login timestamp st req
  = (State (fst r)
       (log st ++ [Event timestamp (identity req)
                     (get "X-Country" "Unknown" (headers req)) lat lon
                     (get "User-Agent" "" (headers req)) (path req) "POST"
                     (Some username) (Some password) None
                     (fst (snd r)) (snd (snd r))])%list
       (rng st),
     Returned "Invalid credentials. Please try again." 401).
Proof.
  intros Hm Hlat Hlon. cbv zeta. unfold Web.fake_login, identity.
  rewrite Hm. simpl String.eqb. cbv iota.
  destruct (analyze_request _ _ _ _) as [fa [risk tags]].
  rewrite Hlat, Hlon. reflexivity.
Qed.

(** A POST with a geolocation header that does not convert ends in the
    exception, after the counters were updated and before anything is
    logged. *)
Lemma fake_login_post_raises (timestamp : string) (st : state F) (req : request) :
  method req = "POST" ->
  coordinate py_float (get "X-Lat" "0" (headers req)) = None
  \/ coordinate py_float (get "X-Lon" "0" (headers req)) = None ->
  snd (fake_login timestamp st req) = Raised "ValueError"
  /\ log (fst (fake_login timestamp st req)) = log st.
Proof.
  intros Hm Hbad. unfold Web.fake_login.
  rewrite Hm. simpl String.eqb. cbv iota.
  destruct (analyze_request _ _ _ _) as [fa [risk tags]].
  destruct (coordinate py_float (get "X-Lat" "0" (headers req))) as [lat|];
    [|split; reflexivity].
  destruct Hbad as [Hbad|Hbad]; [discriminate|].
  rewrite Hbad. split; reflexivity.
Qed.

(** No POST to the login view is answered with anything but the refusal. *)
Lemma fake_login_post_never_succeeds
    (timestamp : string) (st : state F) (req : request) :
  method req = "POST" ->
  snd (fake_login timestamp st req)
    = Returned "Invalid credentials. Please try again." 401
  \/ snd (fake_login timestamp st req) = Raised "ValueError".
Proof.
  intros Hm.
  destruct (coordinate py_float (get "X-Lat" "0" (headers req))) as [lat|] eqn:Elat.
  - destruct (coordinate py_float (get "X-Lon" "0" (headers req))) as [lon|] eqn:Elon.
    + left. now rewrite (fake_login_post timestamp st req lat lon Hm Elat Elon).
    + right. apply fake_login_post_raises; [exact Hm | now right].
  - right. apply fake_login_post_raises; [exact Hm | now left].
Qed.

(** The counters after a view are those [analyze_request] leaves, also
    when the view raises. *)
Lemma fake_login_counters (timestamp : string) (st : state F) (req : request) :
  exists data_str,
    failed_attempts (fst (fake_login timestamp st req))
    = fst (analyze_request (failed_attempts st) (identity req) (path req) data_str).
Proof.
  unfold Web.fake_login, identity.
  destruct (String.eqb (method req) "POST").
  - exists (get "username" "" (form req) ++ " " ++ get "password" "" (form req)).
    destruct (analyze_request _ _ _ _) as [fa [risk tags]].
    destruct (coordinate _ _); [destruct (coordinate _ _)|]; reflexivity.
  - exists "".
    destruct (analyze_request _ _ _ _) as [fa [risk tags]].
    destruct (coordinate _ _); [destruct (coordinate _ _)|]; reflexivity.
Qed.

Lemma catch_all_counters
    (timestamp later : string) (st : state F) (any_path : string) (req : request) :
  exists data_str,
    failed_attempts (fst (catch_all timestamp later st any_path req))
    = fst (analyze_request (failed_attempts st) (identity req)
             ("/" ++ any_path) data_str).
Proof.
  unfold Web.catch_all, identity.
  exists (if String.eqb (method req) "POST" then body req else "").
  destruct (analyze_request _ _ _ _) as [fa [risk tags]].
  destruct (coordinate _ _); [destruct (coordinate _ _)|]; try reflexivity.
  simpl. destruct (generate_response _ _ _ _ _). reflexivity.
Qed.

(** One request moves a counter by one when it is an interaction of its
    identity on /admin or /login, and not at all otherwise. *)
Lemma perform_attempts (st : state F) (op : operation) (ip : string) :
  attempts (failed_attempts (fst (perform st op))) ip
  = attempts (failed_attempts st) ip + (if targets_admin ip op then 1 else 0).
Proof.
  destruct op as [|timestamp req|timestamp later any_path req]; simpl.
  - lia.
  - destruct (fake_login_counters timestamp st req) as [d ->].
    apply analyze_request_attempts.
  - destruct (catch_all_counters timestamp later st any_path req) as [d ->].
    apply analyze_request_attempts.
Qed.

Lemma serve_app (ops1 ops2 : list operation) :
  forall st : state F, serve st (ops1 ++ ops2)%list = serve (serve st ops1) ops2.
Proof. induction ops1 as [|op ops1 IH]; intros st; simpl; [reflexivity | apply IH]. Qed.

Lemma serve_attempts (ops : list operation) (ip : string) :
  forall st : state F,
    attempts (failed_attempts (serve st ops)) ip
    = attempts (failed_attempts st) ip
      + Z.of_nat (length (filter (fun op => targets_admin ip op = true) ops)).
Proof.
  induction ops as [|op ops IH]; intros st; simpl serve.
  - simpl. lia.
  - rewrite IH, perform_attempts, filter_cons.
    destruct (decide (targets_admin ip op = true)) as [E|E].
    + rewrite E. simpl length. lia.
    + apply not_true_is_false in E. rewrite E. lia.
Qed.

(** C6. For every identity the counter never decreases while the process
    serves requests: a request that is an interaction of that identity on
    /admin or /login adds exactly one, every other request (the index view,
    the catch-all view on any other path, requests of other identities)
    leaves it as it is, and so after any further requests it is at least
    what it was. *)
Theorem counter_monotone (st : state F) (ip : string) :
  (forall op,
     attempts (failed_attempts (fst (perform st op))) ip
     = attempts (failed_attempts st) ip + (if targets_admin ip op then 1 else 0))
  /\ (forall ops,
        attempts (failed_attempts (serve st ops)) ip
        = attempts (failed_attempts st) ip
          + Z.of_nat (length (filter (fun op => targets_admin ip op = true) ops)))
  /\ (forall ops later,
        attempts (failed_attempts (serve st ops)) ip
        <= attempts (failed_attempts (serve st (ops ++ later)%list)) ip).
Proof.
  split; [intros op; apply perform_attempts|].
  split; [intros ops; apply serve_attempts|].
  intros ops later. rewrite serve_app, (serve_attempts later). lia.
Qed.

(** C1, amended. For every process state, a POST to /admin with form
    fields username = admin' OR '1'='1 and password = test, whose
    geolocation headers convert, is logged as an interaction whose tags
    include "SQLi" and whose score is at least 5, and the caller receives
    the fixed refusal "Invalid credentials. Please try again." with status
    401: the login view does not consult the response selector. *)
Theorem sqli_login_is_logged_and_refused
    (timestamp : string) (st : state F) (req : request) :
  method req = "POST" ->
  path req = "/admin" ->
  form req !! "username" = Some "admin' OR '1'='1" ->
  form req !! "password" = Some "test" ->
  coordinates_convert py_float req ->
  exists e,
    log (fst (fake_login timestamp st req)) = (log st ++ [e])%list
    /\ ev_path e = "/admin"
    /\ In "SQLi" (ev_tags e)
    /\ 5 <= ev_risk_score e
    /\ snd (fake_login timestamp st req)
       = Returned "Invalid credentials. Please try again." 401.
Proof.
  intros Hm Hp Hu Hpw [[lat Hlat] [lon Hlon]].
  rewrite (fake_login_post timestamp st req lat lon Hm Hlat Hlon).
  eexists. simpl. split; [reflexivity|]. split; [exact Hp|].
  unfold get. rewrite Hu, Hpw.
  split; [|split; [|reflexivity]]; apply analyze_request_sqli; reflexivity.
Qed.

(** The catch-all view on /phpmyadmin, for a request without payload (any
    method but POST, or a POST with an empty body) whose geolocation
    headers convert: the interaction is logged with exactly the tags
    ["Scanner"] and the score 2, the counters stay as they are, and the
    caller gets, with status 200, a listing of 3 to 7 distinct names of
    [FAKE_FILES], one per line. *)
Lemma catch_all_phpmyadmin
    (timestamp later : string) (st : state F) (req : request) :
  (method req = "POST" -> body req = "") ->
  coordinates_convert py_float req ->
  exists (e : event F) (files : list string),
    snd (catch_all timestamp later st "phpmyadmin" req)
    = Returned (join nl files) 200
    /\ (3 <= length files <= 7)%nat
    /\ NoDup files
    /\ (forall f, f ∈ files -> f ∈ FAKE_FILES)
    /\ log (fst (catch_all timestamp later st "phpmyadmin" req))
       = (log st ++ [e])%list
    /\ ev_tags e = ["Scanner"] /\ ev_risk_score e = 2
    /\ failed_attempts (fst (catch_all timestamp later st "phpmyadmin" req))
       = failed_attempts st.
Proof.
  intros Hbody [[lat Hlat] [lon Hlon]].
  destruct (fake_ls_listing (rng st)) as [files [Hfiles [Hlen [Hnd Hin]]]].
  unfold Web.catch_all.
  assert (Hdata : (if String.eqb (method req) "POST" then body req else "") = "").
  { destruct (String.eqb_spec (method req) "POST") as [Hm|_];
      [now apply Hbody | reflexivity]. }
  rewrite Hdata.
  change ("/" ++ "phpmyadmin") with "/phpmyadmin".
  rewrite analyze_request_phpmyadmin, Hlat, Hlon.
  cbn [primary_tag with_attempts log_event with_rng failed_attempts log rng].
  rewrite scanner_below_five_lists.
  destruct (fake_ls (rng st)) as [content t'] eqn:E. simpl in *. subst content.
  eexists. exists files.
  split; [reflexivity|]. split; [lia|]. split; [exact Hnd|]. split; [exact Hin|].
  repeat split; reflexivity.
Qed.

(** When a geolocation header does not convert, the catch-all view ends
    in the exception: the scorer has run, nothing is logged and the
    selector is not reached. *)
Lemma catch_all_raises
    (timestamp later : string) (st : state F) (any_path : string) (req : request) :
  coordinate py_float (get "X-Lat" "0" (headers req)) = None
  \/ coordinate py_float (get "X-Lon" "0" (headers req)) = None ->
  snd (catch_all timestamp later st any_path req) = Raised "ValueError"
  /\ log (fst (catch_all timestamp later st any_path req)) = log st
  /\ rng (fst (catch_all timestamp later st any_path req)) = rng st.
Proof.
  intros Hbad. unfold Web.catch_all.
  destruct (analyze_request _ _ _ _) as [fa [risk tags]].
  destruct (coordinate py_float (get "X-Lat" "0" (headers req))) as [lat|];
    [|repeat split; reflexivity].
  destruct Hbad as [Hbad|Hbad]; [discriminate|].
  rewrite Hbad. repeat split; reflexivity.
Qed.

End Views.

Lemma sqli_login_is_logged_and_refused_witness :
  exists e,
    log (fst (fake_login PyFloat.float id noon quiet_state sqli_login)) = [e]
    /\ ev_path e = "/admin"
    /\ In "SQLi" (ev_tags e)
    /\ 5 <= ev_risk_score e
    /\ snd (fake_login PyFloat.float id noon quiet_state sqli_login)
       = Returned "Invalid credentials. Please try again." 401.
Proof.
  apply (sqli_login_is_logged_and_refused
           PyFloat.float id noon quiet_state sqli_login).
  - reflexivity.
  - reflexivity.
  - reflexivity.
  - reflexivity.
  - split; eexists; vm_compute; reflexivity.
Defined.

(** C1, as stated, fails: for the POST of scenario A the caller receives
    the refusal with status 401, which is not a leaked-credentials artifact
    for any outcome of the random generator and the clock. *)
Lemma sqli_login_gets_no_artifact :
  snd (fake_login PyFloat.float id noon quiet_state sqli_login)
  = Returned "Invalid credentials. Please try again." 401
  /\ forall (now : string) (t : tape) (status : Z),
       snd (fake_login PyFloat.float id noon quiet_state sqli_login)
       <> Returned (fst (juicy_secrets now t)) status.
Proof.
  assert (H : snd (fake_login PyFloat.float id noon quiet_state sqli_login)
              = Returned "Invalid credentials. Please try again." 401)
    by (vm_compute; reflexivity).
  split; [exact H|].
  intros now t status. rewrite H.
  destruct (juicy_secrets_shape now t) as [rest ->]. discriminate.
Qed.

(** C10 at the failing input. A POST to /admin whose X-Lat header is
    [abc] is not answered with the refusal: [float("abc")] raises while
    the event is being built, after the counter was incremented, so the
    view ends in a [ValueError] and logs nothing. *)
Theorem login_post_with_malformed_latitude_raises
    (timestamp : string) (st : state string) (render : string -> string) :
  let result :=
    fake_login PyFloat.float render timestamp st login_with_malformed_latitude in
  snd result = Raised "ValueError"
  /\ snd result <> Returned "Invalid credentials. Please try again." 401
  /\ log (fst result) = log st
  /\ attempts (failed_attempts (fst result)) "203.0.113.7"
     = attempts (failed_attempts st) "203.0.113.7" + 1.
Proof.
  cbv zeta.
  destruct (fake_login_post_raises PyFloat.float render timestamp st
              login_with_malformed_latitude) as [Hout Hlog];
    [reflexivity | left; reflexivity |].
  split; [exact Hout|]. split; [rewrite Hout; discriminate|].
  split; [exact Hlog|].
  apply (perform_attempts PyFloat.float render st
           (FakeLogin timestamp login_with_malformed_latitude) "203.0.113.7").
Qed.

(** C7 at the failing input. A GET of /phpmyadmin whose X-Lat header is
    [abc] is an interaction with empty payload on /phpmyadmin; the scorer
    gives it exactly the tags ["Scanner"] and the score 2 and leaves the
    counters alone, but the catch-all view returns no directory listing for
    it, nor anything else: [float("abc")] raises while the event is being
    built, so the view ends in a [ValueError] before it logs the
    interaction and before it asks the selector for a response. *)
Theorem phpmyadmin_probe_with_malformed_latitude_raises
    (timestamp later : string) (st : state string) :
  let result :=
    catch_all PyFloat.float timestamp later st "phpmyadmin"
      probe_with_malformed_latitude in
  analyze_request (failed_attempts st) (identity probe_with_malformed_latitude)
    "/phpmyadmin" ""
  = (failed_attempts st, (2, ["Scanner"]))
  /\ snd result = Raised "ValueError"
  /\ (forall content status, snd result <> Returned content status)
  /\ log (fst result) = log st
  /\ rng (fst result) = rng st
  /\ failed_attempts (fst result) = failed_attempts st.
Proof.
  cbv zeta.
  destruct (catch_all_raises PyFloat.float timestamp later st "phpmyadmin"
              probe_with_malformed_latitude) as (Hout & Hlog & Hrng);
    [left; reflexivity |].
  split; [apply analyze_request_phpmyadmin|].
  split; [exact Hout|].
  split; [intros content status; rewrite Hout; discriminate|].
  split; [exact Hlog|]. split; [exact Hrng|].
  destruct (catch_all_counters PyFloat.float timestamp later st "phpmyadmin"
              probe_with_malformed_latitude) as [d ->].
  unfold analyze_request.
  change (existsb (String.eqb ("/" ++ "phpmyadmin")) ADMIN_PATHS) with false.
  cbv iota.
  destruct (is_sqli d), (is_xss d),
    (existsb (fun p => contains p (lower ("/" ++ "phpmyadmin"))) SCANNER_MARKERS);
    reflexivity.
Qed.

End ViewFacts.

(** ** The shell session *)
Module SessionFacts.

Import Text Ssh Reading.

Local Arguments existsb : simpl never.

Lemma has_line_nonempty (buffer : string) : has_line buffer = true -> buffer <> "".
Proof. intros H ->. discriminate. Qed.

(** Splitting off a line shortens a buffer that holds a line end. *)
Lemma partition_shorter (s : string) :
  s <> "" ->
  (String.length (snd (partition newline s)) < String.length s)%nat.
Proof.
  induction s as [|c s IH]; intros Hne; [congruence|].
  simpl. destruct (Ascii.eqb c newline); simpl; [lia|].
  destruct s as [|c' s'].
  - simpl. lia.
  - assert (H : String c' s' <> "") by discriminate.
    specialize (IH H).
    destruct (partition newline (String c' s')) as [[h found] t].
    simpl in *. lia.
Qed.

(** The line loop never runs out of fuel when given the buffer's length. *)
Lemma line_loop_total (ip : string) (fuel : nat) :
  forall (buffer : string) (clock : nat -> string),
    (String.length buffer <= fuel)%nat ->
    exists r, line_loop fuel ip buffer clock = Some r.
Proof.
  induction fuel as [|fuel IH]; intros buffer clock Hlen.
  - destruct buffer; [|simpl in Hlen; lia]. simpl. eexists; reflexivity.
  - simpl. destruct (has_line buffer) eqn:Hline; [|eexists; reflexivity].
    pose proof (partition_shorter buffer (has_line_nonempty _ Hline)) as Hshort.
    destruct (partition newline buffer) as [[line found] rest]. simpl in Hshort.
    assert (Hrest : (String.length rest <= fuel)%nat) by lia.
    destruct (String.eqb (strip line) "").
    + destruct (IH rest clock Hrest) as [[acts out] ->]. simpl. eexists; reflexivity.
    + destruct (existsb (String.eqb (strip line)) ["exit"; "quit"]); [eexists; reflexivity|].
      destruct (IH rest (fun i => clock (S i)) Hrest) as [[acts out] ->].
      simpl. eexists; reflexivity.
Qed.




Lemma recv_loop_total (ip : string) (input : list received) :
  forall (buffer : string) (clock : nat -> string),
    exists r, recv_loop ip buffer clock input = Some r.
Proof.
  induction input as [|x input IH]; intros buffer clock; simpl; [eexists; reflexivity|].
  destruct x; [|eexists; reflexivity|eexists; reflexivity].
  unfold process_lines.
  destruct (line_loop_total ip (String.length (buffer ++ decoded))
              (buffer ++ decoded) clock (le_n _)) as [[acts out] ->].
  simpl. destruct out as [buffer' clock'|]; [|eexists; reflexivity].
  destruct (IH buffer' clock') as [[acts' s] ->]. simpl. eexists; reflexivity.
Qed.






End SessionFacts.

(** ** The matcher against the meaning of patterns *)
Module ReFacts.

Import Text Re ReMeaning.

Lemma append_cons (c : ascii) (s t : string) : String c s ++ t = String c (s ++ t).
Proof. reflexivity. Qed.

Lemma append_nil_r (s : string) : s ++ "" = s.
Proof. induction s as [|c s IH]; [reflexivity|]. now rewrite append_cons, IH. Qed.

Lemma append_assoc (a b c : string) : (a ++ b) ++ c = a ++ (b ++ c).
Proof. induction a as [|x a IH]; [reflexivity|]. now rewrite !append_cons, IH. Qed.

Lemma length_append (a b : string) :
  String.length (a ++ b) = (String.length a + String.length b)%nat.
Proof. induction a as [|x a IH]; [reflexivity|]. rewrite append_cons. simpl. now rewrite IH. Qed.

Lemma append_inv_head (w a b : string) : w ++ a = w ++ b -> a = b.
Proof. induction w as [|x w IH]; [auto|]. rewrite !append_cons. intros [= H]. auto. Qed.

Lemma last_char_append (a b : string) (prev : option ascii) :
  last_char (a ++ b) prev = last_char b (last_char a prev).
Proof.
  revert prev. induction a as [|x a IH]; intros prev; [reflexivity|].
  rewrite append_cons. simpl. apply IH.
Qed.

Lemma last_char_cons (c : ascii) (w : string) (prev other : option ascii) :
  last_char (String c w) prev = last_char (String c w) other.
Proof. reflexivity. Qed.

Lemma last_char_some (w : string) (c : ascii) : is_Some (last_char w (Some c)).
Proof. revert c. induction w as [|x w IH]; intros c; simpl; eauto. Qed.

(** [drop_prefix] removes the literal and reports the last character it
    read, if it read any. *)
Lemma drop_prefix_append (p t : string) :
  drop_prefix p (p ++ t) = Some (last_char p None, t).
Proof.
  induction p as [|a p IH]; [reflexivity|].
  rewrite append_cons. simpl. rewrite Ascii.eqb_refl, IH.
  destruct p as [|c p]; [reflexivity|].
  simpl. destruct (last_char_some p c) as [l ->]. reflexivity.
Qed.

Lemma drop_prefix_inv (p : string) :
  forall s o t, drop_prefix p s = Some (o, t) -> s = p ++ t.
Proof.
  induction p as [|a p IH]; intros s o t; simpl.
  - now intros [= <- <-].
  - destruct s as [|b s]; [discriminate|].
    destruct (Ascii.eqb_spec a b) as [<-|Hne]; [|discriminate].
    destruct (drop_prefix p s) as [[o' t']|] eqn:E; [|discriminate].
    intros H. assert (t' = t) by (destruct o'; now injection H). subst t'.
    rewrite append_cons. f_equal. eapply IH, E.
Qed.

Lemma drop_prefix_spec (p s : string) (o : option ascii) (t : string) :
  drop_prefix p s = Some (o, t) <-> s = p ++ t /\ o = last_char p None.
Proof.
  split.
  - intros H. pose proof (drop_prefix_inv _ _ _ _ H) as ->.
    rewrite drop_prefix_append in H. injection H as <-. now split.
  - intros [-> ->]. apply drop_prefix_append.
Qed.

Lemma last_char_prev (p : string) (prev : option ascii) :
  last_char p prev
  = match last_char p None with Some c => Some c | None => prev end.
Proof.
  destruct p as [|c p]; [reflexivity|].
  simpl. destruct (last_char_some p c) as [l ->]. reflexivity.
Qed.

Lemma one_char_iff (p : ascii -> bool) (s : string)
    (k : option ascii -> string -> bool) :
  one_char p s k = true
  <-> exists c s', s = String c s' /\ p c = true /\ k (Some c) s' = true.
Proof.
  destruct s as [|c s]; simpl.
  - split; [discriminate | intros (c & s' & [=] & _)].
  - rewrite andb_true_iff. split.
    + intros [Hp Hk]. eauto.
    + intros (c' & s' & [= <- <-] & Hp & Hk). now split.
Qed.

(** The matcher succeeds exactly when the pattern derives a position that
    the continuation accepts. *)
Theorem matches_iff (r : regex) :
  forall prev s k,
    matches r prev s k = true
    <-> exists prev' s', derives r prev s prev' s' /\ k prev' s' = true.
Proof.
  induction r as [p| | | | |r1 IH1 r2 IH2|r1 IH1 r2 IH2|r1 IH1|r1 IH1];
    intros prev s k.
  - simpl. split.
    + destruct (drop_prefix p s) as [[o t]|] eqn:E; [|discriminate].
      apply drop_prefix_spec in E as [-> ->]. intros Hk.
      exists (last_char p prev), t. split; [constructor|].
      rewrite last_char_prev. now destruct (last_char p None).
    + intros (prev' & s' & Hd & Hk). inversion Hd; subst.
      rewrite drop_prefix_append.
      rewrite last_char_prev in Hk. now destruct (last_char p None).
  - simpl. rewrite one_char_iff. split.
    + intros (c & s' & -> & Hc & Hk). exists (Some c), s'. split; [|exact Hk].
      constructor. intros ->. now rewrite Ascii.eqb_refl in Hc.
    + intros (prev' & s' & Hd & Hk). inversion Hd; subst.
      eexists _, _. split; [reflexivity|]. split; [|exact Hk].
      apply negb_true_iff. now apply Ascii.eqb_neq.
  - simpl. rewrite one_char_iff. split.
    + intros (c & s' & -> & Hc & Hk). exists (Some c), s'. split; [now constructor|exact Hk].
    + intros (prev' & s' & Hd & Hk). inversion Hd; subst. eauto.
  - simpl. rewrite one_char_iff. split.
    + intros (c & s' & -> & Hc & Hk). exists (Some c), s'. split; [now constructor|exact Hk].
    + intros (prev' & s' & Hd & Hk). inversion Hd; subst. eauto.
  - simpl. rewrite andb_true_iff. split.
    + intros [Hb Hk]. exists prev, s. split; [now constructor|exact Hk].
    + intros (prev' & s' & Hd & Hk). inversion Hd; subst. now split.
  - simpl. rewrite IH1. split.
    + intros (p1 & s1 & Hd1 & H2). apply IH2 in H2 as (p2 & s2 & Hd2 & Hk).
      exists p2, s2. split; [econstructor; eassumption|exact Hk].
    + intros (p2 & s2 & Hd & Hk). inversion Hd; subst.
      eexists _, _. split; [eassumption|]. apply IH2. eauto.
  - simpl. rewrite orb_true_iff, IH1, IH2. split.
    + intros [(p' & s' & Hd & Hk)|(p' & s' & Hd & Hk)]; exists p', s';
        (split; [|exact Hk]); [now apply derives_alt_l | now apply derives_alt_r].
    + intros (p' & s' & Hd & Hk). inversion Hd; subst; [left|right]; eauto.
  - simpl. rewrite orb_true_iff, IH1. split.
    + intros [(p' & s' & Hd & Hk)|Hk].
      * exists p', s'. split; [now apply derives_opt_some|exact Hk].
      * exists prev, s. split; [apply derives_opt_none|exact Hk].
    + intros (p' & s' & Hd & Hk). inversion Hd; subst; [left; eauto|now right].
  - simpl.
    remember (String.length s) as fuel eqn:Hfuel.
    assert (Hle : (String.length s <= fuel)%nat) by lia. clear Hfuel.
    revert prev s Hle.
    induction fuel as [|fuel IHf]; intros prev s Hle.
    + split.
      * intros Hk. exists prev, s. split; [apply derives_star_stop|exact Hk].
      * intros (p' & s' & Hd & Hk). inversion Hd; subst; [exact Hk|lia].
    + rewrite orb_true_iff, IH1. split.
      * intros [(p1 & s1 & Hd1 & H)|Hk].
        -- apply andb_true_iff in H as [Hlt H]. apply Nat.ltb_lt in Hlt.
           apply IHf in H as (p2 & s2 & Hd2 & Hk); [|lia].
           exists p2, s2. split; [|exact Hk].
           eapply derives_star_more; eassumption.
        -- exists prev, s. split; [apply derives_star_stop|exact Hk].
      * intros (p' & s' & Hd & Hk). inversion Hd; subst; [now right|].
        left. eexists _, _. split; [eassumption|].
        apply andb_true_iff. split; [now apply Nat.ltb_lt|].
        apply IHf; [lia|]. eauto.
Qed.

End ReFacts.

(** ** What the signature matchers flag *)
Module SignatureMeaning.

Import Text Re ReMeaning Signatures ReFacts Web.

Lemma derives_consumes r prev s prev' s' :
  derives r prev s prev' s' -> exists w, s = w ++ s' /\ prev' = last_char w prev.
Proof.
  induction 1.
  - eauto.
  - exists (String c ""). now split.
  - exists (String c ""). now split.
  - exists (String c ""). now split.
  - exists "". now split.
  - destruct IHderives1 as (w1 & -> & ->), IHderives2 as (w2 & -> & ->).
    exists (w1 ++ w2). now rewrite append_assoc, last_char_append.
  - assumption.
  - assumption.
  - assumption.
  - exists "". now split.
  - exists "". now split.
  - destruct IHderives1 as (w1 & -> & ->), IHderives2 as (w2 & -> & ->).
    exists (w1 ++ w2). now rewrite append_assoc, last_char_append.
Qed.

Lemma startswith_iff (p s : string) :
  startswith p s = true <-> exists post, s = p ++ post.
Proof.
  revert s. induction p as [|a p IH]; intros s; simpl.
  - split; eauto.
  - destruct s as [|b s].
    + split; [discriminate | intros (post & [=])].
    + rewrite andb_true_iff, IH. split.
      * intros [Hab (post & ->)]. apply Ascii.eqb_eq in Hab as ->. eauto.
      * intros (post & Heq). rewrite append_cons in Heq. injection Heq as -> ->.
        split; [apply Ascii.eqb_refl | eauto].
Qed.

(** [p in s] holds exactly when [s] splits around an occurrence of [p]. *)
Lemma contains_iff (p s : string) :
  contains p s = true <-> exists pre post, s = pre ++ p ++ post.
Proof.
  induction s as [|c s IH].
  - simpl. rewrite orb_false_r, startswith_iff. split.
    + intros (post & ->). exists "", post. reflexivity.
    + intros (pre & post & Heq). destruct pre as [|x pre]; [eauto|discriminate].
  - simpl. rewrite orb_true_iff, startswith_iff, IH. split.
    + intros [(post & ->)|(pre & post & ->)].
      * exists "", post. reflexivity.
      * exists (String c pre), post. reflexivity.
    + intros (pre & post & Heq). destruct pre as [|x pre].
      * left. eauto.
      * right. rewrite append_cons in Heq. injection Heq as -> ->. eauto.
Qed.

Lemma contains_append (p a b : string) :
  contains p b = true -> contains p (a ++ b) = true.
Proof.
  rewrite !contains_iff. intros (pre & post & ->).
  exists (a ++ pre), post. now rewrite append_assoc.
Qed.

Lemma contains_middle (p pre post : string) : contains p (pre ++ p ++ post) = true.
Proof. apply contains_iff. eauto. Qed.

Lemma contains_nl_cons (c : ascii) (s : string) :
  contains nl (String c s) = Ascii.eqb newline c || contains nl s.
Proof.
  change (contains nl (String c s))
    with ((Ascii.eqb newline c && true) || contains nl s).
  now rewrite andb_true_r.
Qed.

Lemma one_line_append (a b : string) : one_line a -> one_line b -> one_line (a ++ b).
Proof.
  unfold one_line. induction a as [|c a IH]; [auto|].
  rewrite append_cons, !contains_nl_cons.
  intros Ha Hb. apply orb_false_iff in Ha as [-> Ha]. simpl. auto.
Qed.

(** [.*] reads any run of characters without a newline. *)
Lemma derives_star_dot prev s prev' s' :
  derives (Star Dot) prev s prev' s'
  <-> exists mid, s = mid ++ s' /\ prev' = last_char mid prev /\ one_line mid.
Proof.
  split.
  - remember (Star Dot) as r eqn:Hr. induction 1; try discriminate.
    + exists "". repeat split.
    + injection Hr as ->. specialize (IHderives2 eq_refl).
      destruct IHderives2 as (mid & -> & -> & Hmid).
      inversion H; subst.
      exists (String c mid). repeat split.
      unfold one_line in *. rewrite contains_nl_cons, Hmid.
      destruct (Ascii.eqb_spec newline c); [congruence|reflexivity].
  - intros (mid & -> & -> & Hmid). revert prev Hmid.
    induction mid as [|c mid IH]; intros prev Hmid.
    + apply derives_star_stop.
    + unfold one_line in Hmid. rewrite contains_nl_cons in Hmid.
      apply orb_false_iff in Hmid as [Hc Hmid].
      rewrite append_cons.
      eapply derives_star_more; [| |apply IH, Hmid].
      * constructor. intros ->. now rewrite Ascii.eqb_refl in Hc.
      * simpl. lia.
Qed.

(** [\s+] reads any non-empty run of whitespace. *)
Lemma derives_plus_space prev s prev' s' :
  derives (Plus Space) prev s prev' s'
  <-> exists ws, s = ws ++ s' /\ prev' = last_char ws prev
                 /\ ws <> "" /\ all_chars isspace ws = true.
Proof.
  assert (Hstar : forall prev s prev' s',
             derives (Star Space) prev s prev' s'
             <-> exists ws, s = ws ++ s' /\ prev' = last_char ws prev
                            /\ all_chars isspace ws = true).
  { clear. intros prev s prev' s'. split.
    - remember (Star Space) as r eqn:Hr. induction 1; try discriminate.
      + exists "". repeat split.
      + injection Hr as ->. specialize (IHderives2 eq_refl).
        destruct IHderives2 as (ws & -> & -> & Hws).
        inversion H; subst.
        exists (String c ws). repeat split. simpl. now rewrite Hws, andb_true_r.
    - intros (ws & -> & -> & Hws). revert prev Hws.
      induction ws as [|c ws IH]; intros prev Hws.
      + apply derives_star_stop.
      + simpl in Hws. apply andb_true_iff in Hws as [Hc Hws].
        rewrite append_cons.
        eapply derives_star_more; [| |apply IH, Hws].
        * now constructor.
        * simpl. lia. }
  unfold Plus. split.
  - intros H. inversion H; subst.
    match goal with Hs : derives Space _ _ _ _ |- _ => inversion Hs; subst end.
    match goal with Hs : derives (Star Space) _ _ _ _ |- _ =>
      apply Hstar in Hs as (ws & -> & -> & Hws) end.
    exists (String c ws). repeat split; [discriminate|].
    simpl. apply andb_true_iff. now split.
  - intros (ws & -> & -> & Hne & Hws).
    destruct ws as [|c ws]; [congruence|].
    simpl in Hws. apply andb_true_iff in Hws as [Hc Hws].
    rewrite append_cons. econstructor; [now constructor|].
    apply Hstar. exists ws. now repeat split.
Qed.

(** [re.search] succeeds exactly when the pattern is found at some offset. *)
Lemma search_iff (r : regex) (s : string) : search r s = true <-> found r s.
Proof.
  unfold search, found.
  assert (H : forall prev,
             search_from r prev s = true
             <-> exists pre rest prev' s',
                   s = pre ++ rest /\ derives r (last_char pre prev) rest prev' s').
  { induction s as [|c s IH]; intros prev; simpl.
    - rewrite orb_false_r, matches_iff. split.
      + intros (p' & s' & Hd & _). exists "", "", p', s'. now split.
      + intros (pre & rest & p' & s' & Heq & Hd).
        destruct pre; [|discriminate]. change ("" = rest) in Heq.
        subst rest. eauto.
    - rewrite orb_true_iff, matches_iff, IH. split.
      + intros [(p' & s' & Hd & _)|(pre & rest & p' & s' & -> & Hd)].
        * exists "", (String c s), p', s'. now split.
        * exists (String c pre), rest, p', s'. now split.
      + intros (pre & rest & p' & s' & Heq & Hd). destruct pre as [|x pre].
        * left. change (String c s = rest) in Heq. subst rest. eauto.
        * right. rewrite append_cons in Heq. injection Heq as -> ->.
          exists pre, rest, p', s'. now split. }
  apply H.
Qed.

(** A literal pattern is a substring test. *)
Lemma search_str (p s : string) : search (Str p) s = contains p s.
Proof.
  apply eq_true_iff_eq. rewrite search_iff, contains_iff. unfold found. split.
  - intros (pre & rest & p' & s' & -> & Hd). inversion Hd; subst. eauto.
  - intros (pre & post & ->). exists pre, (p ++ post). eexists _, post.
    split; [reflexivity | constructor].
Qed.

(** The pattern [a.*b]. *)
Lemma search_then_on_line (a b s : string) :
  search (Cat (Str a) (Cat (Star Dot) (Str b))) s = true <-> then_on_line a b s.
Proof.
  rewrite search_iff. unfold found, then_on_line. split.
  - intros (pre & rest & p' & s' & -> & Hd).
    inversion Hd as [| | | | |? ? ? ? ? ? ? ? Ha Hrest| | | | | |]; subst.
    inversion Ha; subst.
    inversion Hrest as [| | | | |? ? ? ? ? ? ? ? Hstar Hb| | | | | |]; subst.
    inversion Hb; subst.
    apply derives_star_dot in Hstar as (mid & Heq & _ & Hmid).
    exists pre, mid, s'. rewrite Heq. now split.
  - intros (pre & mid & post & -> & Hmid).
    exists pre, (a ++ mid ++ b ++ post). eexists _, post.
    split; [reflexivity|].
    econstructor; [constructor|]. econstructor; [|constructor].
    apply derives_star_dot. exists mid. now repeat split.
Qed.

(** The pattern [a\s+b]. *)
Lemma search_spaced (a b s : string) :
  search (Cat (Str a) (Cat (Plus Space) (Str b))) s = true <-> spaced a b s.
Proof.
  rewrite search_iff. unfold found, spaced. split.
  - intros (pre & rest & p' & s' & -> & Hd).
    inversion Hd as [| | | | |? ? ? ? ? ? ? ? Ha Hrest| | | | | |]; subst.
    inversion Ha; subst.
    inversion Hrest as [| | | | |? ? ? ? ? ? ? ? Hplus Hb| | | | | |]; subst.
    inversion Hb; subst.
    apply derives_plus_space in Hplus as (ws & Heq & _ & Hne & Hws).
    exists pre, ws, s'. rewrite Heq. now repeat split.
  - intros (pre & ws & post & -> & Hne & Hws).
    exists pre, (a ++ ws ++ b ++ post). eexists _, post.
    split; [reflexivity|].
    econstructor; [constructor|]. econstructor; [|constructor].
    apply derives_plus_space. exists ws. now repeat split.
Qed.

Lemma at_boundary_spec (prev : option ascii) (s : string) :
  at_boundary prev s
  = xorb (match prev with Some c => isword c | None => false end)
         (starts_with_word s).
Proof. reflexivity. Qed.

Lemma starts_with_word_append (w s : string) :
  w <> "" -> starts_with_word (w ++ s) = starts_with_word w.
Proof. destruct w; [congruence | reflexivity]. Qed.

(** The pattern [\bw\b] for a word [w]: the word with no word character
    on either side. *)
Lemma derives_standalone (w : string) prev s prev' s' :
  starts_with_word w = true -> ends_in_word w = true ->
  derives (Cat WordBoundary (Cat (Str w) WordBoundary)) prev s prev' s'
  <-> s = w ++ s'
      /\ prev' = last_char w None
      /\ match prev with Some c => isword c | None => false end = false
      /\ starts_with_word s' = false.
Proof.
  intros Hstart Hend.
  assert (Hne : w <> "") by (intros ->; discriminate).
  assert (Hlast : forall q, last_char w q = last_char w None)
    by (intros q; destruct w; [congruence | reflexivity]).
  unfold ends_in_word in Hend.
  split.
  - intros Hd.
    inversion Hd as [| | | | |? ? ? ? ? ? ? ? Hb1 Hrest| | | | | |]; subst.
    inversion Hb1 as [| | | |? ? Hat1| | | | | | |]; subst.
    inversion Hrest as [| | | | |? ? ? ? ? ? ? ? Hw Hb2| | | | | |]; subst.
    inversion Hw; subst.
    inversion Hb2 as [| | | |? ? Hat2| | | | | | |]; subst.
    rewrite at_boundary_spec in Hat1, Hat2.
    rewrite starts_with_word_append, Hstart in Hat1 by exact Hne.
    rewrite Hlast in Hat2.
    split; [reflexivity|]. split; [apply Hlast|].
    destruct (last_char w None) as [l|]; [|discriminate]. rewrite Hend in Hat2.
    split.
    + match goal with |- ?b = false => now destruct b end.
    + now destruct (starts_with_word s').
  - intros (-> & -> & Hprev & Hafter).
    econstructor; [constructor|].
    + rewrite at_boundary_spec, starts_with_word_append, Hstart, Hprev by exact Hne.
      reflexivity.
    + rewrite <- (Hlast prev). econstructor; [constructor|]. constructor.
      rewrite at_boundary_spec, Hlast, Hafter.
      destruct (last_char w None) as [l|]; [|discriminate]. now rewrite Hend.
Qed.

(** The pattern [(\bw1\b|\bw2\b).*(e1|e2)]. *)
Lemma search_word_then (w1 w2 e1 e2 s : string) :
  starts_with_word w1 = true -> ends_in_word w1 = true ->
  starts_with_word w2 = true -> ends_in_word w2 = true ->
  search (Cat (Alt (Cat WordBoundary (Cat (Str w1) WordBoundary))
                   (Cat WordBoundary (Cat (Str w2) WordBoundary)))
              (Cat (Star Dot) (Alt (Str e1) (Str e2)))) s = true
  <-> word_then w1 e1 s \/ word_then w1 e2 s
      \/ word_then w2 e1 s \/ word_then w2 e2 s.
Proof.
  intros Hs1 He1 Hs2 He2.
  rewrite search_iff. unfold found, word_then. split.
  - intros (pre & rest & p' & s' & -> & Hd).
    inversion Hd as [| | | | |? ? ? ? ? ? ? ? Hword Htail| | | | | |]; subst.
    inversion Htail as [| | | | |? ? ? ? ? ? ? ? Hstar Hend| | | | | |]; subst.
    apply derives_star_dot in Hstar as (mid & -> & _ & Hmid).
    assert (Hcase :
      forall w, starts_with_word w = true -> ends_in_word w = true ->
        derives (Cat WordBoundary (Cat (Str w) WordBoundary))
          (last_char pre None) rest prev1 (mid ++ s0) ->
        forall e, derives (Str e) prev0 s0 p' s' ->
        exists pre0 mid0 post,
          pre ++ rest = pre0 ++ w ++ mid0 ++ e ++ post
          /\ ends_in_word pre0 = false
          /\ starts_with_word (mid0 ++ e ++ post) = false
          /\ one_line mid0).
    { intros w Hs He Hw e Hde.
      apply (derives_standalone w) in Hw as (-> & _ & Hbefore & Hafter);
        [|assumption..].
      inversion Hde; subst.
      exists pre, mid, s'. repeat split; assumption. }
    inversion Hword; subst; inversion Hend; subst.
    + left. eapply Hcase; eauto.
    + right; left. eapply Hcase; eauto.
    + right; right; left. eapply Hcase; eauto.
    + right; right; right. eapply Hcase; eauto.
  - assert (Hbuild :
      forall w e, starts_with_word w = true -> ends_in_word w = true ->
        forall pre mid post,
          ends_in_word pre = false ->
          starts_with_word (mid ++ e ++ post) = false ->
          one_line mid ->
          derives (Cat WordBoundary (Cat (Str w) WordBoundary))
            (last_char pre None) (w ++ mid ++ e ++ post)
            (last_char w None) (mid ++ e ++ post)
          /\ derives (Star Dot) (last_char w None) (mid ++ e ++ post)
               (last_char mid (last_char w None)) (e ++ post)).
    { intros w e Hs He pre mid post Hpre Hpost Hmid. split.
      - apply derives_standalone; [assumption..|]. now repeat split.
      - apply derives_star_dot. exists mid. now repeat split. }
    intros [H|[H|[H|H]]]; destruct H as (pre & mid & post & -> & Hpre & Hpost & Hmid).
    + destruct (Hbuild w1 e1 Hs1 He1 pre mid post Hpre Hpost Hmid) as [Hw Hstar].
      exists pre, (w1 ++ mid ++ e1 ++ post). eexists _, post.
      split; [reflexivity|].
      econstructor; [apply derives_alt_l, Hw|].
      econstructor; [exact Hstar|]. apply derives_alt_l. constructor.
    + destruct (Hbuild w1 e2 Hs1 He1 pre mid post Hpre Hpost Hmid) as [Hw Hstar].
      exists pre, (w1 ++ mid ++ e2 ++ post). eexists _, post.
      split; [reflexivity|].
      econstructor; [apply derives_alt_l, Hw|].
      econstructor; [exact Hstar|]. apply derives_alt_r. constructor.
    + destruct (Hbuild w2 e1 Hs2 He2 pre mid post Hpre Hpost Hmid) as [Hw Hstar].
      exists pre, (w2 ++ mid ++ e1 ++ post). eexists _, post.
      split; [reflexivity|].
      econstructor; [apply derives_alt_r, Hw|].
      econstructor; [exact Hstar|]. apply derives_alt_l. constructor.
    + destruct (Hbuild w2 e2 Hs2 He2 pre mid post Hpre Hpost Hmid) as [Hw Hstar].
      exists pre, (w2 ++ mid ++ e2 ++ post). eexists _, post.
      split; [reflexivity|].
      econstructor; [apply derives_alt_r, Hw|].
      econstructor; [exact Hstar|]. apply derives_alt_r. constructor.
Qed.

Lemma lower_append (a b : string) : lower (a ++ b) = lower a ++ lower b.
Proof.
  induction a as [|c a IH]; [reflexivity|].
  rewrite append_cons. simpl. now rewrite IH.
Qed.

Lemma is_xss_iff (text : string) :
  is_xss text = true
  <-> then_on_line "<script" ">" (lower text)
      \/ contains "javascript:" (lower text) = true
      \/ contains "onerror=" (lower text) = true
      \/ contains "onload=" (lower text) = true.
Proof.
  unfold is_xss, XSS_PATTERNS. cbn [existsb].
  rewrite !orb_true_iff, search_then_on_line, !search_str. intuition discriminate.
Qed.

(** X1. What [is_xss] flags: a text whose lowercase form holds [<script]
    followed later on the same line by [>], or holds one of [javascript:],
    [onerror=], [onload=]; and nothing else. *)
Theorem is_xss_meaning (text : string) :
  is_xss text = true
  <-> then_on_line "<script" ">" (lower text)
      \/ contains "javascript:" (lower text) = true
      \/ contains "onerror=" (lower text) = true
      \/ contains "onload=" (lower text) = true.
Proof. apply is_xss_iff. Qed.

Lemma is_sqli_iff (text : string) :
  is_sqli text = true
  <-> word_then "or" "=" (lower text) \/ word_then "or" "like" (lower text)
      \/ word_then "and" "=" (lower text) \/ word_then "and" "like" (lower text)
      \/ then_on_line "union" "select" (lower text)
      \/ then_on_line "select" "from" (lower text)
      \/ spaced "drop" "table" (lower text)
      \/ contains "'--" (lower text) = true
      \/ contains (String double_quote "--") (lower text) = true
      \/ contains ";--" (lower text) = true.
Proof.
  unfold is_sqli, SQLI_PATTERNS. cbn [existsb].
  rewrite !orb_true_iff, !search_then_on_line, search_spaced, !search_str.
  rewrite (search_word_then "or" "and" "=" "like") by reflexivity.
  intuition discriminate.
Qed.

(** X2. What [is_sqli] flags: a text whose lowercase form holds the word
    [or] or [and], standing alone, followed later on the same line by [=]
    or [like]; or [union] followed on the same line by [select]; or
    [select] followed on the same line by [from]; or [drop], whitespace
    and [table]; or two dashes right after a quote, a double quote or a
    semicolon; and nothing else. *)
Theorem is_sqli_meaning (text : string) :
  is_sqli text = true
  <-> word_then "or" "=" (lower text) \/ word_then "or" "like" (lower text)
      \/ word_then "and" "=" (lower text) \/ word_then "and" "like" (lower text)
      \/ then_on_line "union" "select" (lower text)
      \/ then_on_line "select" "from" (lower text)
      \/ spaced "drop" "table" (lower text)
      \/ contains "'--" (lower text) = true
      \/ contains (String double_quote "--") (lower text) = true
      \/ contains ";--" (lower text) = true.
Proof. apply is_sqli_iff. Qed.

(** X3. The classic tautology is flagged wherever it stands: a text that
    holds [' OR '1'='1], in any letter case and with anything before and
    after it, is flagged by [is_sqli]. *)
Theorem tautology_is_flagged_anywhere (before payload after : string) :
  lower payload = "' or '1'='1" ->
  is_sqli (before ++ payload ++ after) = true.
Proof.
  intros Hp. apply is_sqli_iff. left.
  rewrite !lower_append, Hp.
  exists (lower before ++ "' "), " '1'", ("'1" ++ lower after).
  split; [now rewrite !append_assoc|].
  split; [|split; reflexivity].
  unfold ends_in_word. now rewrite last_char_append.
Qed.

Lemma tautology_is_flagged_anywhere_witness :
  lower "' Or '1'='1" = "' or '1'='1"
  /\ is_sqli ("user=admin" ++ "' Or '1'='1" ++ "&password=x") = true.
Proof.
  assert (H : lower "' Or '1'='1" = "' or '1'='1") by reflexivity.
  split; [exact H|].
  exact (tautology_is_flagged_anywhere "user=admin" "' Or '1'='1" "&password=x" H).
Defined.

(** X4. No text is flagged by [is_sqli] unless its lowercase form holds one
    of [=], [like], [select], [table], [--]. *)
Theorem plain_text_is_not_sqli (text : string) :
  Forall (fun token => contains token (lower text) = false)
         [ "="; "like"; "select"; "table"; "--" ] ->
  is_sqli text = false.
Proof.
  intros H.
  repeat match goal with
         | H : Forall _ (_ :: _) |- _ => apply Forall_cons in H as [? H]
         end.
  apply not_true_is_false. rewrite is_sqli_iff.
  assert (Hin : forall token pre post,
             lower text = pre ++ token ++ post ->
             contains token (lower text) = true)
    by (intros token pre post ->; apply contains_middle).
  intros [(pre & mid & post & Heq & _)|[(pre & mid & post & Heq & _)
         |[(pre & mid & post & Heq & _)|[(pre & mid & post & Heq & _)
         |[(pre & mid & post & Heq & _)|[(pre & mid & post & Heq & _)
         |[(pre & ws & post & Heq & _)|[Hc|[Hc|Hc]]]]]]]]].
  - assert (contains "=" (lower text) = true); [|congruence].
    apply (Hin "=" (pre ++ "or" ++ mid) post). now rewrite Heq, !append_assoc.
  - assert (contains "like" (lower text) = true); [|congruence].
    apply (Hin "like" (pre ++ "or" ++ mid) post). now rewrite Heq, !append_assoc.
  - assert (contains "=" (lower text) = true); [|congruence].
    apply (Hin "=" (pre ++ "and" ++ mid) post). now rewrite Heq, !append_assoc.
  - assert (contains "like" (lower text) = true); [|congruence].
    apply (Hin "like" (pre ++ "and" ++ mid) post). now rewrite Heq, !append_assoc.
  - assert (contains "select" (lower text) = true); [|congruence].
    apply (Hin "select" (pre ++ "union" ++ mid) post). now rewrite Heq, !append_assoc.
  - assert (contains "select" (lower text) = true); [|congruence].
    apply (Hin "select" pre (mid ++ "from" ++ post)). exact Heq.
  - assert (contains "table" (lower text) = true); [|congruence].
    apply (Hin "table" (pre ++ "drop" ++ ws) post). now rewrite Heq, !append_assoc.
  - apply contains_iff in Hc as (pre & post & Heq).
    assert (contains "--" (lower text) = true); [|congruence].
    apply (Hin "--" (pre ++ "'") post). now rewrite Heq, !append_assoc.
  - apply contains_iff in Hc as (pre & post & Heq).
    assert (contains "--" (lower text) = true); [|congruence].
    apply (Hin "--" (pre ++ String double_quote "") post).
    now rewrite Heq, !append_assoc.
  - apply contains_iff in Hc as (pre & post & Heq).
    assert (contains "--" (lower text) = true); [|congruence].
    apply (Hin "--" (pre ++ ";") post). now rewrite Heq, !append_assoc.
Qed.

Lemma plain_text_is_not_sqli_witness :
  Forall (fun token => contains token (lower "Order by name, or pay later") = false)
         [ "="; "like"; "select"; "table"; "--" ]
  /\ is_sqli "Order by name, or pay later" = false.
Proof.
  assert (H : Forall (fun token =>
                        contains token (lower "Order by name, or pay later") = false)
                     [ "="; "like"; "select"; "table"; "--" ])
    by (repeat constructor).
  split; [exact H|].
  exact (plain_text_is_not_sqli "Order by name, or pay later" H).
Defined.

(** *** Padding *)

Lemma isword_lower_char (c : ascii) : isword (lower_char c) = isword c.
Proof. destruct c as [[] [] [] [] [] [] [] []]; reflexivity. Qed.

Lemma last_char_lower (s : string) (prev : option ascii) :
  last_char (lower s) (option_map lower_char prev)
  = option_map lower_char (last_char s prev).
Proof.
  revert prev. induction s as [|c s IH]; intros prev; [reflexivity|].
  simpl. apply (IH (Some c)).
Qed.

Lemma ends_in_word_lower (s : string) : ends_in_word (lower s) = ends_in_word s.
Proof.
  unfold ends_in_word.
  change (last_char (lower s) None)
    with (last_char (lower s) (option_map lower_char None)).
  rewrite last_char_lower.
  destruct (last_char s None); simpl; [apply isword_lower_char | reflexivity].
Qed.

Lemma ends_in_word_append (a b : string) :
  ends_in_word a = false -> ends_in_word b = false -> ends_in_word (a ++ b) = false.
Proof.
  unfold ends_in_word. rewrite last_char_append. intros Ha Hb.
  rewrite last_char_prev. destruct (last_char b None); [exact Hb | exact Ha].
Qed.

Lemma then_on_line_padded (a b l pre post : string) :
  then_on_line a b l -> then_on_line a b (pre ++ l ++ post).
Proof.
  intros (p0 & mid & q0 & -> & Hmid).
  exists (pre ++ p0), mid, (q0 ++ post). split; [|exact Hmid].
  now rewrite !append_assoc.
Qed.

Lemma spaced_padded (a b l pre post : string) :
  spaced a b l -> spaced a b (pre ++ l ++ post).
Proof.
  intros (p0 & ws & q0 & -> & Hws).
  exists (pre ++ p0), ws, (q0 ++ post). split; [|exact Hws].
  now rewrite !append_assoc.
Qed.

Lemma contains_padded (p l pre post : string) :
  contains p l = true -> contains p (pre ++ l ++ post) = true.
Proof.
  rewrite !contains_iff. intros (p0 & q0 & ->).
  exists (pre ++ p0), (q0 ++ post). now rewrite !append_assoc.
Qed.

Lemma word_then_padded (w e l pre post : string) :
  e <> "" -> ends_in_word pre = false ->
  word_then w e l -> word_then w e (pre ++ l ++ post).
Proof.
  intros He Hpre (p0 & mid & q0 & -> & Hp0 & Hafter & Hmid).
  exists (pre ++ p0), mid, (q0 ++ post).
  split; [now rewrite !append_assoc|].
  split; [now apply ends_in_word_append|].
  split; [|exact Hmid].
  rewrite <- Hafter.
  destruct mid as [|c mid]; [|reflexivity].
  destruct e as [|c e]; [congruence | reflexivity].
Qed.

Lemma is_xss_padded (before text after : string) :
  is_xss text = true -> is_xss (before ++ text ++ after) = true.
Proof.
  rewrite !is_xss_iff, !lower_append.
  intros [H|[H|[H|H]]];
    [left; now apply then_on_line_padded | right; left | right; right; left
    | right; right; right]; now apply contains_padded.
Qed.

Lemma is_sqli_padded (before text after : string) :
  ends_in_word before = false ->
  is_sqli text = true -> is_sqli (before ++ text ++ after) = true.
Proof.
  intros Hb. rewrite <- ends_in_word_lower in Hb.
  rewrite !is_sqli_iff, !lower_append.
  intros [H|[H|[H|[H|[H|[H|[H|[H|[H|H]]]]]]]]].
  - left. apply word_then_padded; [discriminate|exact Hb|exact H].
  - right; left. apply word_then_padded; [discriminate|exact Hb|exact H].
  - do 2 right; left. apply word_then_padded; [discriminate|exact Hb|exact H].
  - do 3 right; left. apply word_then_padded; [discriminate|exact Hb|exact H].
  - do 4 right; left. now apply then_on_line_padded.
  - do 5 right; left. now apply then_on_line_padded.
  - do 6 right; left. now apply spaced_padded.
  - do 7 right; left. now apply contains_padded.
  - do 8 right; left. now apply contains_padded.
  - do 9 right. now apply contains_padded.
Qed.

(** X5. Padding does not hide an attack.  A text flagged by [is_xss]
    stays flagged with anything put before and after it; a text flagged by
    [is_sqli] stays flagged with anything put after it, and with anything
    put before it that does not end in a word character. *)
Theorem padding_does_not_hide (before text after : string) :
  (is_xss text = true -> is_xss (before ++ text ++ after) = true)
  /\ (ends_in_word before = false ->
      is_sqli text = true -> is_sqli (before ++ text ++ after) = true).
Proof. split; [apply is_xss_padded | apply is_sqli_padded]. Qed.

Lemma padding_does_not_hide_witness :
  is_xss "<script>" = true
  /\ ends_in_word "name: " = false
  /\ is_sqli "x' or 1=1" = true
  /\ is_xss ("<b>" ++ "<script>" ++ "</b>") = true
  /\ is_sqli ("name: " ++ "x' or 1=1" ++ " #") = true.
Proof.
  assert (H1 : is_xss "<script>" = true) by reflexivity.
  assert (H2 : ends_in_word "name: " = false) by reflexivity.
  assert (H3 : is_sqli "x' or 1=1" = true) by reflexivity.
  split; [exact H1|]. split; [exact H2|]. split; [exact H3|]. split.
  - exact (proj1 (padding_does_not_hide "<b>" "<script>" "</b>") H1).
  - exact (proj2 (padding_does_not_hide "name: " "x' or 1=1" " #") H2 H3).
Defined.

(** A word character before the text can hide it: [or] is then no word. *)
Example a_letter_before_hides_the_word :
  is_sqli "or 1=1" = true /\ is_sqli ("f" ++ "or 1=1") = false.
Proof. split; reflexivity. Qed.

(** X6. The login view scans the username and the password joined by a
    space; a field that is flagged on its own keeps the joined text
    flagged, by [is_sqli] as by [is_xss], whatever the other field holds. *)
Theorem a_flagged_field_flags_the_login (username password : string) :
  (is_sqli username || is_sqli password = true ->
   is_sqli (username ++ " " ++ password) = true)
  /\ (is_xss username || is_xss password = true ->
      is_xss (username ++ " " ++ password) = true).
Proof.
  split; intros H; apply orb_true_iff in H as [H|H].
  - rewrite <- (append_nil_r (username ++ " " ++ password)), append_assoc.
    change (is_sqli ("" ++ username ++ (" " ++ password) ++ "") = true).
    apply is_sqli_padded; [reflexivity | exact H].
  - rewrite <- (append_nil_r password), <- append_assoc.
    apply is_sqli_padded; [|exact H].
    unfold ends_in_word. rewrite last_char_append. reflexivity.
  - rewrite <- (append_nil_r (username ++ " " ++ password)), append_assoc.
    change (is_xss ("" ++ username ++ (" " ++ password) ++ "") = true).
    apply is_xss_padded. exact H.
  - rewrite <- (append_nil_r password), <- append_assoc.
    apply is_xss_padded. exact H.
Qed.

Lemma a_flagged_field_flags_the_login_witness :
  is_sqli "guest" || is_sqli "x' or 1=1" = true
  /\ is_sqli ("guest" ++ " " ++ "x' or 1=1") = true.
Proof.
  assert (H : is_sqli "guest" || is_sqli "x' or 1=1" = true) by reflexivity.
  split; [exact H|].
  exact (proj1 (a_flagged_field_flags_the_login "guest" "x' or 1=1") H).
Defined.

(** The converse fails: two harmless fields can make a flagged text. *)
Example two_plain_fields_can_be_flagged :
  is_sqli "this or" = false /\ is_sqli "that = 1" = false
  /\ is_sqli ("this or" ++ " " ++ "that = 1") = true.
Proof. repeat split. Qed.

End SignatureMeaning.

(** ** More on the risk scorer *)
Module ScorerMeaning.

Import Text Re Web Reading LogTerms CounterFacts.

Lemma admin_path_cases (path : string) :
  on_admin_path path = true -> path = "/admin" \/ path = "/login".
Proof.
  unfold on_admin_path, ADMIN_PATHS. cbn [existsb].
  rewrite !orb_true_iff, !String.eqb_eq. intuition discriminate.
Qed.

(** No admin path carries a scanner marker. *)
Lemma admin_path_no_marker (path : string) :
  on_admin_path path = true -> has_scanner_marker path = false.
Proof. intros H. destruct (admin_path_cases path H) as [->| ->]; reflexivity. Qed.

(** [analyze_request] by the outcome of its four checks. *)
Lemma analyze_request_cases (fa : gmap string Z) (ip path data_str : string) :
  snd (analyze_request fa ip path data_str)
  = let sqli := is_sqli data_str in
    let xss := is_xss data_str in
    let brute := on_admin_path path && (5 <=? attempts fa ip) in
    let scan := has_scanner_marker path in
    let risk := (if sqli then 5 else 0) + (if xss then 5 else 0)
                + (if brute then 3 else 0) + (if scan then 2 else 0) in
    let tags := ((if sqli then ["SQLi"] else [])
                 ++ (if xss then ["XSS"] else [])
                 ++ (if brute then ["Bruteforce"] else [])
                 ++ (if scan then ["Scanner"] else []))%list in
    (risk, if risk =? 0 then (tags ++ ["Low-Risk"])%list else tags).
Proof.
  unfold analyze_request, on_admin_path, has_scanner_marker.
  destruct (existsb (String.eqb path) ADMIN_PATHS).
  - rewrite attempts_insert. destruct (decide (ip = ip)); [|congruence].
    replace (5 <? attempts fa ip + 1) with (5 <=? attempts fa ip)
      by (destruct (Z.leb_spec 5 (attempts fa ip)), (Z.ltb_spec 5 (attempts fa ip + 1));
          (reflexivity || lia)).
    destruct (is_sqli data_str), (is_xss data_str), (5 <=? attempts fa ip),
      (existsb (fun p => contains p (lower path)) SCANNER_MARKERS); reflexivity.
  - destruct (is_sqli data_str), (is_xss data_str),
      (existsb (fun p => contains p (lower path)) SCANNER_MARKERS); reflexivity.
Qed.

Local Ltac in_iff :=
  split; intros H;
  [ first [ reflexivity | exfalso; simpl in H; intuition discriminate ]
  | first [ discriminate H | simpl; intuition ] ].

(** X7. The tags say which checks fired, in the order the checks run:
    "SQLi" is present exactly when [is_sqli] flags the payload, "XSS"
    exactly when [is_xss] does, "Scanner" exactly when the lowercased path
    holds a scanner marker; and the list is either the lone sentinel
    "Low-Risk" or a selection of SQLi, XSS, Bruteforce, Scanner in that
    order, each at most once. *)
Theorem tags_follow_the_checks (fa : gmap string Z) (ip path data_str : string) :
  let tags := snd (snd (analyze_request fa ip path data_str)) in
  (In "SQLi" tags <-> is_sqli data_str = true)
  /\ (In "XSS" tags <-> is_xss data_str = true)
  /\ (In "Scanner" tags <-> has_scanner_marker path = true)
  /\ (tags = ["Low-Risk"] \/ sublist tags CHECK_ORDER).
Proof.
  cbv zeta. rewrite analyze_request_cases. cbv zeta.
  destruct (is_sqli data_str), (is_xss data_str),
    (on_admin_path path && (5 <=? attempts fa ip)), (has_scanner_marker path);
    vm_compute;
    (split; [in_iff | split; [in_iff | split; [in_iff |]]]);
    first [ left; reflexivity
          | right; unfold CHECK_ORDER;
            repeat first [apply sublist_nil | apply sublist_skip | apply sublist_cons] ].
Qed.

(** X8. The tag list is never empty, and the sentinel "Low-Risk" is there
    exactly when the score is 0, in which case it is the only tag. *)
Theorem low_risk_is_the_zero_score (fa : gmap string Z) (ip path data_str : string) :
  let risk := fst (snd (analyze_request fa ip path data_str)) in
  let tags := snd (snd (analyze_request fa ip path data_str)) in
  tags <> []
  /\ (In "Low-Risk" tags <-> risk = 0)
  /\ (risk = 0 <-> tags = ["Low-Risk"]).
Proof.
  cbv zeta. rewrite analyze_request_cases. cbv zeta.
  destruct (is_sqli data_str), (is_xss data_str),
    (on_admin_path path && (5 <=? attempts fa ip)), (has_scanner_marker path);
    vm_compute; (split; [discriminate|]); split; split; intros H;
    first [ reflexivity | discriminate H | lia
          | exfalso; simpl in H; intuition discriminate
          | simpl; intuition ].
Qed.

(** X9. The score is one of 0, 2, 3, 5, 7, 8, 10, 12, 13: it never exceeds
    13, because "Bruteforce" and "Scanner" are never given together (the
    two admin paths hold no scanner marker). *)
Theorem score_is_at_most_thirteen (fa : gmap string Z) (ip path data_str : string) :
  let risk := fst (snd (analyze_request fa ip path data_str)) in
  let tags := snd (snd (analyze_request fa ip path data_str)) in
  In risk [0; 2; 3; 5; 7; 8; 10; 12; 13]
  /\ risk <= 13
  /\ ~ (In "Bruteforce" tags /\ In "Scanner" tags).
Proof.
  cbv zeta. rewrite analyze_request_cases. cbv zeta.
  destruct (on_admin_path path) eqn:Hadmin.
  - rewrite (admin_path_no_marker path Hadmin).
    destruct (is_sqli data_str), (is_xss data_str), (5 <=? attempts fa ip);
      vm_compute; (split; [tauto|]); (split; [discriminate|]); intuition discriminate.
  - destruct (is_sqli data_str), (is_xss data_str), (has_scanner_marker path);
      vm_compute; (split; [tauto|]); (split; [discriminate|]); intuition discriminate.
Qed.

End ScorerMeaning.

(** ** The log the views write *)
Module LogFacts.

Import Text Re Rand GenAI Web Reading LogTerms CounterFacts SelectorFacts
       ScorerMeaning.

Section Views.

Context {F : Type}.
Variable py_float : string -> option F.
Variable render_template_string : string -> string.

Local Abbreviation fake_login := (fake_login py_float render_template_string).
Local Abbreviation catch_all := (catch_all py_float).
Local Abbreviation perform := (perform py_float render_template_string).
Local Abbreviation serve := (serve py_float render_template_string).
Local Abbreviation convert := (coordinates_convert py_float).

Lemma convert_or_not (req : request) :
  (exists lat lon,
      coordinate py_float (get "X-Lat" "0" (headers req)) = Some lat
      /\ coordinate py_float (get "X-Lon" "0" (headers req)) = Some lon)
  \/ ~ convert req.
Proof.
  unfold coordinates_convert.
  destruct (coordinate py_float (get "X-Lat" "0" (headers req))) as [lat|];
    [|right; intros [[? [=]] _]].
  destruct (coordinate py_float (get "X-Lon" "0" (headers req))) as [lon|];
    [|right; intros [_ [? [=]]]].
  left. eauto.
Qed.

(** What the login view does, whatever the method. *)
Lemma fake_login_run (timestamp : string) (st : state F) (req : request) :
  let r := analyze_request (failed_attempts st) (identity req) (path req)
             (login_payload req) in
  let st' := fst (fake_login timestamp st req) in
  failed_attempts st' = fst r
  /\ rng st' = rng st
  /\ ((convert req
       /\ (exists e, log st' = (log st ++ [e])%list
                     /\ ev_ip e = identity req /\ ev_path e = path req
                     /\ ev_risk_score e = fst (snd r) /\ ev_tags e = snd (snd r))
       /\ snd (fake_login timestamp st req)
          = if String.eqb (method req) "POST"
            then Returned "Invalid credentials. Please try again." 401
            else Returned (render_template_string LOGIN_PAGE) 200)
      \/ (~ convert req /\ log st' = log st
          /\ snd (fake_login timestamp st req) = Raised "ValueError")).
Proof.
  cbv zeta. unfold Web.fake_login, login_payload, identity.
  destruct (convert_or_not req) as [(lat & lon & Hlat & Hlon)|Hno].
  - rewrite Hlat, Hlon.
    assert (Hc : convert req) by (split; [rewrite Hlat | rewrite Hlon]; eauto).
    destruct (String.eqb (method req) "POST");
      destruct (analyze_request _ _ _ _) as [fa [risk tags]]; simpl;
      (split; [reflexivity|]); (split; [reflexivity|]); left;
      (split; [exact Hc|]); (split; [|reflexivity]);
      eexists; repeat split; reflexivity.
  - assert (Hraise :
      forall (A : Type) (k : number F -> number F -> A) (bad : A),
        match coordinate py_float (get "X-Lat" "0" (headers req)) with
        | Some lat =>
            match coordinate py_float (get "X-Lon" "0" (headers req)) with
            | Some lon => k lat lon
            | None => bad
            end
        | None => bad
        end = bad).
    { intros A k bad. unfold coordinates_convert in Hno.
      destruct (coordinate py_float (get "X-Lat" "0" (headers req))); [|reflexivity].
      destruct (coordinate py_float (get "X-Lon" "0" (headers req))); [|reflexivity].
      exfalso. apply Hno. split; eauto. }
    destruct (String.eqb (method req) "POST");
      destruct (analyze_request _ _ _ _) as [fa [risk tags]];
      rewrite Hraise; simpl; repeat split; right; repeat split; assumption.
Qed.

(** What the catch-all view does. *)
Lemma catch_all_run
    (timestamp later : string) (st : state F) (any_path : string) (req : request) :
  let r := analyze_request (failed_attempts st) (identity req) ("/" ++ any_path)
             (catch_all_payload req) in
  let reply := generate_response (primary_tag (snd (snd r))) (fst (snd r))
                 ("/" ++ any_path) later (rng st) in
  let st' := fst (catch_all timestamp later st any_path req) in
  failed_attempts st' = fst r
  /\ ((convert req
       /\ (exists e, log st' = (log st ++ [e])%list
                     /\ ev_ip e = identity req /\ ev_path e = "/" ++ any_path
                     /\ ev_risk_score e = fst (snd r) /\ ev_tags e = snd (snd r))
       /\ rng st' = snd reply
       /\ snd (catch_all timestamp later st any_path req)
          = Returned (fst reply) 200)
      \/ (~ convert req /\ log st' = log st /\ rng st' = rng st
          /\ snd (catch_all timestamp later st any_path req) = Raised "ValueError")).
Proof.
  cbv zeta. unfold Web.catch_all, catch_all_payload, identity.
  destruct (convert_or_not req) as [(lat & lon & Hlat & Hlon)|Hno].
  - rewrite Hlat, Hlon.
    assert (Hc : convert req) by (split; [rewrite Hlat | rewrite Hlon]; eauto).
    destruct (analyze_request _ _ _ _) as [fa [risk tags]].
    cbn [fst snd with_attempts log_event with_rng failed_attempts log rng].
    destruct (generate_response _ _ _ _ _) as [content t].
    cbn [fst snd with_attempts log_event with_rng failed_attempts log rng].
    split; [reflexivity|]. left. split; [exact Hc|].
    split; [|split; reflexivity].
    eexists; repeat split; reflexivity.
  - destruct (analyze_request _ _ _ _) as [fa [risk tags]].
    destruct (coordinate py_float (get "X-Lat" "0" (headers req))) as [lat|] eqn:Elat.
    + destruct (coordinate py_float (get "X-Lon" "0" (headers req))) as [lon|] eqn:Elon.
      * exfalso. apply Hno. split; [rewrite Elat | rewrite Elon]; eauto.
      * simpl. split; [reflexivity|]. right. repeat split. exact Hno.
    + simpl. split; [reflexivity|]. right. repeat split. exact Hno.
Qed.

(** What any request does to the state. *)
Lemma perform_run (st : state F) (op : operation) :
  match scored_as op, request_of op with
  | Some (ip, p, d), Some req =>
      let r := analyze_request (failed_attempts st) ip p d in
      let st' := fst (perform st op) in
      failed_attempts st' = fst r
      /\ ((convert req
           /\ (exists e, log st' = (log st ++ [e])%list
                         /\ ev_ip e = ip /\ ev_path e = p
                         /\ ev_risk_score e = fst (snd r)
                         /\ ev_tags e = snd (snd r))
           /\ exists content status,
                snd (perform st op) = Returned content status)
          \/ (~ convert req /\ log st' = log st /\ rng st' = rng st
              /\ snd (perform st op) = Raised "ValueError"))
  | _, _ => fst (perform st op) = st
  end.
Proof.
  destruct op as [|timestamp req|timestamp later any_path req]; simpl.
  - reflexivity.
  - destruct (fake_login_run timestamp st req) as (Hfa & Hrng & [(Hc & He & Hout)|(Hc & Hlog & Hout)]).
    + split; [exact Hfa|]. left. split; [exact Hc|]. split; [exact He|].
      rewrite Hout. destruct (String.eqb (method req) "POST"); eauto.
    + split; [exact Hfa|]. right. now repeat split.
  - destruct (catch_all_run timestamp later st any_path req)
      as (Hfa & [(Hc & He & Hrng & Hout)|(Hc & Hlog & Hrng & Hout)]).
    + split; [exact Hfa|]. left. split; [exact Hc|]. split; [exact He|]. eauto.
    + split; [exact Hfa|]. right. now repeat split.
Qed.

(** One request appends at most one entry to the log: exactly one when a
    view other than the index returns a response, none otherwise. *)
Lemma perform_log (st : state F) (op : operation) :
  exists new,
    log (fst (perform st op)) = (log st ++ new)%list
    /\ (length new <= 1)%nat
    /\ (new = [] <-> op = Index \/ snd (perform st op) = Raised "ValueError").
Proof.
  pose proof (perform_run st op) as H.
  destruct op as [|timestamp req|timestamp later any_path req]; simpl in H.
  - exists []. rewrite app_nil_r. repeat split; auto.
  - destruct H as (_ & [(_ & (e & He & _) & (c & s & Hout))|(_ & Hlog & _ & Hout)]).
    + exists [e]. split; [exact He|]. split; [simpl; lia|].
      split; [discriminate|]. intros [[=]|Hr]. simpl in Hr. congruence.
    + exists []. rewrite app_nil_r. split; [exact Hlog|]. split; [simpl; lia|].
      split; auto.
  - destruct H as (_ & [(_ & (e & He & _) & (c & s & Hout))|(_ & Hlog & _ & Hout)]).
    + exists [e]. split; [exact He|]. split; [simpl; lia|].
      split; [discriminate|]. intros [[=]|Hr]. simpl in Hr. congruence.
    + exists []. rewrite app_nil_r. split; [exact Hlog|]. split; [simpl; lia|].
      split; auto.
Qed.

(** X10. The log is append-only.  A request adds exactly one entry when its
    view (the login view or the catch-all view) returns a response, and
    none when the view raises or the request is for the index; whatever
    requests are served, the entries already written stay in place and at
    most one entry per request is added. *)
Theorem log_is_append_only (st : state F) :
  (forall op, exists new,
      log (fst (perform st op)) = (log st ++ new)%list
      /\ (length new <= 1)%nat
      /\ (new = [] <-> op = Index \/ snd (perform st op) = Raised "ValueError"))
  /\ (forall ops, exists new,
        log (serve st ops) = (log st ++ new)%list
        /\ (length new <= length ops)%nat).
Proof.
  split; [intros op; apply perform_log|].
  intros ops. revert st. induction ops as [|op ops IH]; intros st.
  - exists []. now rewrite app_nil_r.
  - simpl Reading.serve.
    destruct (perform_log st op) as (new1 & H1 & Hlen1 & _).
    destruct (IH (fst (perform st op))) as (new2 & H2 & Hlen2).
    exists (new1 ++ new2)%list. rewrite H2, H1, app_assoc. split; [reflexivity|].
    rewrite length_app. simpl. lia.
Qed.

Lemma analyze_request_well_scored (fa : gmap string Z) (ip path data_str : string) :
  let r := snd (analyze_request fa ip path data_str) in
  fst r = total_weight (snd r) /\ snd r <> [] /\ 0 <= fst r <= 13.
Proof.
  cbv zeta. rewrite analyze_request_cases. cbv zeta.
  destruct (on_admin_path path) eqn:Hadmin.
  - rewrite (admin_path_no_marker path Hadmin).
    destruct (is_sqli data_str), (is_xss data_str), (5 <=? attempts fa ip);
      vm_compute; repeat split; discriminate.
  - destruct (is_sqli data_str), (is_xss data_str), (has_scanner_marker path);
      vm_compute; repeat split; discriminate.
Qed.

Lemma perform_well_scored (st : state F) (op : operation) :
  Forall well_scored (log st) -> Forall well_scored (log (fst (perform st op))).
Proof.
  intros Hlog. pose proof (perform_run st op) as H.
  destruct (scored_as op) as [[[ip p] d]|] eqn:Es;
    destruct (request_of op) as [req|] eqn:Er;
    try (now rewrite H).
  destruct H as (_ & [(_ & (e & -> & _ & _ & Hrisk & Htags) & _)|(_ & -> & _)]);
    [|exact Hlog].
  apply Forall_app. split; [exact Hlog|]. constructor; [|constructor].
  unfold well_scored. rewrite Hrisk, Htags. apply analyze_request_well_scored.
Qed.

(** X11. Every entry the views write is well scored: its score is the sum
    of the weights of its tags, its tag list is not empty and its score
    lies between 0 and 13.  If that holds of the log at some point, it holds
    after any further requests. *)
Theorem log_stays_well_scored (st : state F) (ops : list operation) :
  Forall well_scored (log st) -> Forall well_scored (log (serve st ops)).
Proof.
  revert st. induction ops as [|op ops IH]; intros st Hlog; [exact Hlog|].
  simpl Reading.serve. apply IH, perform_well_scored, Hlog.
Qed.

(** The selector on what the scorer returns. *)
Lemma generate_on_analysis
    (fa : gmap string Z) (ip path data_str later : string) (t : tape) :
  let r := snd (analyze_request fa ip path data_str) in
  generate_response (primary_tag (snd r)) (fst r) path later t
  = catch_all_arm path data_str later t.
Proof.
  cbv zeta. rewrite analyze_request_cases. cbv zeta. unfold catch_all_arm.
  destruct (on_admin_path path) eqn:Hadmin.
  - rewrite (admin_path_no_marker path Hadmin).
    destruct (is_sqli data_str), (is_xss data_str), (5 <=? attempts fa ip);
      reflexivity.
  - destruct (is_sqli data_str), (is_xss data_str), (has_scanner_marker path);
      reflexivity.
Qed.

(** X12. What the catch-all view answers, when the geolocation headers
    convert: status 200 with the leaked-credentials artifact when the body
    is flagged by [is_sqli] or [is_xss]; otherwise the directory listing
    when the path holds a scanner marker; otherwise the admin dashboard
    when the path holds "admin"; otherwise a generic error.  The lockout
    notice and, for a flagged body, the generic error are never sent. *)
Theorem catch_all_answers_by_arm
    (timestamp later : string) (st : state F) (any_path : string) (req : request) :
  convert req ->
  let arm := catch_all_arm ("/" ++ any_path) (catch_all_payload req) later (rng st) in
  snd (catch_all timestamp later st any_path req) = Returned (fst arm) 200
  /\ rng (fst (catch_all timestamp later st any_path req)) = snd arm.
Proof.
  intros Hc. cbv zeta.
  destruct (catch_all_run timestamp later st any_path req)
    as (_ & [(_ & _ & Hrng & Hout)|(Hno & _)]); [|contradiction].
  rewrite generate_on_analysis in Hrng, Hout. now split.
Qed.

(** X13. A request whose X-Lat or X-Lon header does not convert is lost:
    the view (login or catch-all, any method) raises [ValueError], writes
    nothing to the log and draws no random number, although the scorer has
    already run and the identity's counter has moved. *)
Theorem malformed_coordinates_leave_no_trace
    (st : state F) (op : operation) (req : request) (ip : string) :
  request_of op = Some req ->
  ~ convert req ->
  snd (perform st op) = Raised "ValueError"
  /\ log (fst (perform st op)) = log st
  /\ rng (fst (perform st op)) = rng st
  /\ attempts (failed_attempts (fst (perform st op))) ip
     = attempts (failed_attempts st) ip + (if targets_admin ip op then 1 else 0).
Proof.
  intros Hreq Hno. pose proof (perform_run st op) as H.
  destruct op as [|timestamp r|timestamp later any_path r];
    [discriminate| |]; injection Hreq as ->; simpl in H;
    destruct H as (Hfa & [(Hc & _)|(_ & Hlog & Hrng & Hout)]); try contradiction;
    (split; [exact Hout|]); (split; [exact Hlog|]); (split; [exact Hrng|]);
    cbn [Reading.perform targets_admin]; cbn [Reading.perform] in Hfa;
    rewrite Hfa; apply analyze_request_attempts.
Qed.

(** X14. A GET of the login page is scored on an empty payload, so the
    form fields play no part: with geolocation headers that convert, a
    request to /admin or /login with a method other than POST is answered
    with the rendered login page and status 200, moves the identity's
    counter by one like any attempt, and is logged with the lone tag
    "Bruteforce" when the identity had made five attempts before, "Low-Risk"
    otherwise. *)
Theorem login_page_view_counts_as_attempt
    (timestamp : string) (st : state F) (req : request) :
  method req <> "POST" ->
  on_admin_path (path req) = true ->
  convert req ->
  let brute := 5 <=? attempts (failed_attempts st) (identity req) in
  snd (fake_login timestamp st req)
  = Returned (render_template_string LOGIN_PAGE) 200
  /\ attempts (failed_attempts (fst (fake_login timestamp st req))) (identity req)
     = attempts (failed_attempts st) (identity req) + 1
  /\ exists e,
       log (fst (fake_login timestamp st req)) = (log st ++ [e])%list
       /\ ev_tags e = (if brute then ["Bruteforce"] else ["Low-Risk"])
       /\ ev_risk_score e = (if brute then 3 else 0).
Proof.
  intros Hm Hadmin Hc. cbv zeta.
  destruct (fake_login_run timestamp st req)
    as (Hfa & _ & [(_ & (e & Hlog & _ & _ & Hrisk & Htags) & Hout)|(Hno & _)]);
    [|contradiction].
  apply String.eqb_neq in Hm.
  unfold login_payload in *. rewrite Hm in *.
  split; [exact Hout|]. split.
  - rewrite Hfa, analyze_request_attempts, String.eqb_refl, Hadmin. reflexivity.
  - exists e. split; [exact Hlog|].
    rewrite Hrisk, Htags, analyze_request_cases. cbv zeta.
    rewrite Hadmin, (admin_path_no_marker _ Hadmin).
    change (is_sqli "") with false. change (is_xss "") with false.
    destruct (5 <=? attempts (failed_attempts st) (identity req)); split; reflexivity.
Qed.

Lemma targets_admin_scored (ip : string) (op : operation) :
  targets_admin ip op
  = match scored_as op with
    | Some (who, p, _) => String.eqb who ip && on_admin_path p
    | None => false
    end.
Proof. destruct op; reflexivity. Qed.

(** X15. The brute-force tag needs six attempts under one identity.  As
    long as no identity, counting what it had made before, gets beyond five
    interactions on /admin or /login, no entry written to the log carries
    "Bruteforce", however many requests are served in all; the identity
    being the X-Forwarded-For header when the client sends one. *)
Theorem no_bruteforce_within_five_per_identity
    (st : state F) (ops : list operation) :
  (forall ip,
      attempts (failed_attempts st) ip
      + Z.of_nat (length (filter (fun op => targets_admin ip op = true) ops)) <= 5) ->
  exists new,
    log (serve st ops) = (log st ++ new)%list
    /\ Forall (fun e => ~ In "Bruteforce" (ev_tags e)) new.
Proof.
  revert st. induction ops as [|op ops IH]; intros st Hfew.
  - exists []. rewrite app_nil_r. split; [reflexivity | constructor].
  - simpl Reading.serve.
    assert (Hnext : forall ip,
               attempts (failed_attempts (fst (perform st op))) ip
               + Z.of_nat (length (filter (fun op => targets_admin ip op = true) ops))
               <= 5).
    { intros ip. specialize (Hfew ip). rewrite filter_cons in Hfew.
      rewrite (ViewFacts.perform_attempts py_float render_template_string).
      destruct (decide (targets_admin ip op = true)) as [E|E].
      - rewrite E. simpl length in Hfew. lia.
      - apply not_true_is_false in E. rewrite E. lia. }
    destruct (IH _ Hnext) as (new2 & H2 & Hall2).
    pose proof (perform_run st op) as H.
    pose proof (targets_admin_scored) as Ht.
    destruct (scored_as op) as [[[who p] d]|] eqn:Es;
      destruct (request_of op) as [req|] eqn:Er;
      try (exists new2; rewrite H2, H; now split).
    destruct H as (_ & [(_ & (e & Hlog & _ & _ & _ & Htags) & _)|(_ & Hlog & _)]).
    + exists (e :: new2). rewrite H2, Hlog, <- app_assoc. split; [reflexivity|].
      constructor; [|exact Hall2].
      rewrite Htags, analyze_request_bruteforce. intros [Hadmin Hfive].
      specialize (Hfew who). rewrite filter_cons in Hfew.
      specialize (Ht who op). rewrite Es, String.eqb_refl, Hadmin in Ht.
      simpl in Ht.
      destruct (decide (targets_admin who op = true)) as [E|E]; [|congruence].
      simpl length in Hfew. lia.
    + exists new2. rewrite H2, Hlog. now split.
Qed.

End Views.

Lemma log_stays_well_scored_witness :
  Forall well_scored (log quiet_state)
  /\ Forall well_scored (log (serve PyFloat.float id quiet_state rotating_logins)).
Proof.
  assert (H : Forall well_scored (log quiet_state)) by constructor.
  split; [exact H|].
  exact (log_stays_well_scored PyFloat.float id quiet_state rotating_logins H).
Defined.

Lemma catch_all_answers_by_arm_witness :
  coordinates_convert PyFloat.float script_post
  /\ snd (catch_all PyFloat.float noon noon quiet_state "search" script_post)
     = Returned (fst (juicy_secrets noon (rng quiet_state))) 200.
Proof.
  assert (H : coordinates_convert PyFloat.float script_post)
    by (split; eexists; vm_compute; reflexivity).
  split; [exact H|].
  exact (proj1 (catch_all_answers_by_arm PyFloat.float noon noon quiet_state
                  "search" script_post H)).
Defined.

Lemma malformed_coordinates_leave_no_trace_witness :
  request_of (CatchAll noon noon "phpmyadmin" probe_with_bad_longitude)
  = Some probe_with_bad_longitude
  /\ ~ coordinates_convert PyFloat.float probe_with_bad_longitude
  /\ snd (perform PyFloat.float id quiet_state
            (CatchAll noon noon "phpmyadmin" probe_with_bad_longitude))
     = Raised "ValueError".
Proof.
  assert (H1 : request_of (CatchAll noon noon "phpmyadmin" probe_with_bad_longitude)
               = Some probe_with_bad_longitude) by reflexivity.
  assert (H2 : ~ coordinates_convert PyFloat.float probe_with_bad_longitude).
  { intros [_ [lon Hlon]]. vm_compute in Hlon. discriminate. }
  split; [exact H1|]. split; [exact H2|].
  exact (proj1 (malformed_coordinates_leave_no_trace PyFloat.float id quiet_state
                  (CatchAll noon noon "phpmyadmin" probe_with_bad_longitude)
                  probe_with_bad_longitude "203.0.113.7" H1 H2)).
Defined.

Lemma no_bruteforce_within_five_per_identity_witness :
  (forall ip,
      attempts (failed_attempts quiet_state) ip
      + Z.of_nat (length (filter (fun op => targets_admin ip op = true)
                            rotating_logins)) <= 5)
  /\ exists new,
       log (serve PyFloat.float id quiet_state rotating_logins) = new
       /\ length new = 7%nat
       /\ Forall (fun e => ~ In "Bruteforce" (ev_tags e)) new.
Proof.
  assert (H : forall ip,
             attempts (failed_attempts quiet_state) ip
             + Z.of_nat (length (filter (fun op => targets_admin ip op = true)
                                   rotating_logins)) <= 5).
  { intros ip.
    change (attempts (failed_attempts quiet_state) ip) with 0.
    unfold rotating_logins. simpl map.
    rewrite !filter_cons, filter_nil.
    repeat match goal with
           | |- context [decide (targets_admin ip (login_as ?a) = true)] =>
               destruct (decide (targets_admin ip (login_as a) = true)) as [E|_];
               [ apply andb_true_iff in E as [E _];
                 apply String.eqb_eq in E; vm_compute in E; subst ip;
                 vm_compute; discriminate | ]
           end.
    simpl. lia. }
  split; [exact H|].
  destruct (no_bruteforce_within_five_per_identity PyFloat.float id
              quiet_state rotating_logins H) as (new & Hlog & Hall).
  change (log quiet_state ++ new)%list with new in Hlog.
  exists new. split; [exact Hlog|]. split; [|exact Hall].
  rewrite <- Hlog. reflexivity.
Defined.

Lemma login_page_view_counts_as_attempt_witness :
  method login_page_get <> "POST"
  /\ on_admin_path (path login_page_get) = true
  /\ coordinates_convert PyFloat.float login_page_get
  /\ snd (fake_login PyFloat.float id noon quiet_state login_page_get)
     = Returned LOGIN_PAGE 200.
Proof.
  assert (H1 : method login_page_get <> "POST") by discriminate.
  assert (H2 : on_admin_path (path login_page_get) = true) by reflexivity.
  assert (H3 : coordinates_convert PyFloat.float login_page_get)
    by (split; eexists; vm_compute; reflexivity).
  split; [exact H1|]. split; [exact H2|]. split; [exact H3|].
  exact (proj1 (login_page_view_counts_as_attempt PyFloat.float id noon
                  quiet_state login_page_get H1 H2 H3)).
Defined.

End LogFacts.

(** ** The bait the selector hands out *)
Module BaitFacts.

Import Text Rand GenAI BaitTerms RandFacts.

(** X16. The leaked-secrets artifact always has the same layout; only
    three values vary: the password is one of [FAKE_PASSWORDS], the API key
    number lies in 1000000..9999999 and the AWS secret number in
    10000000..99999999.  Exactly three random draws are used. *)
Theorem juicy_secrets_layout (now : string) (t : tape) :
  exists pass key secret,
    juicy_secrets now t = (secrets_text pass key secret now, after_draws 3 t)
    /\ In pass FAKE_PASSWORDS
    /\ (1000000 <= key <= 9999999)%N
    /\ (10000000 <= secret <= 99999999)%N.
Proof.
  unfold juicy_secrets.
  pose proof (choice_In "" FAKE_PASSWORDS t ltac:(discriminate)) as Hpass.
  assert (Ht1 : snd (choice "" FAKE_PASSWORDS t) = advance t) by reflexivity.
  destruct (choice "" FAKE_PASSWORDS t) as [pass t1]. simpl in Hpass, Ht1. subst t1.
  pose proof (randint_range 1000000 9999999 (advance t) ltac:(lia)) as Hkey.
  assert (Ht2 : snd (randint 1000000 9999999 (advance t)) = advance (advance t))
    by reflexivity.
  destruct (randint 1000000 9999999 (advance t)) as [key t2].
  simpl in Hkey, Ht2. subst t2.
  pose proof (randint_range 10000000 99999999 (advance (advance t)) ltac:(lia))
    as Hsecret.
  assert (Ht3 : snd (randint 10000000 99999999 (advance (advance t)))
                = advance (advance (advance t))) by reflexivity.
  destruct (randint 10000000 99999999 (advance (advance t))) as [secret t3].
  simpl in Hsecret, Ht3. subst t3.
  exists pass, key, secret. repeat split; try assumption; lia.
Qed.

(** X17. The admin dashboard always has the same layout; only the date of
    the last backup varies, with a day in 1..28 and a month in 1..9 printed
    after a 0.  Exactly two random draws are used. *)
Theorem fake_admin_page_layout (t : tape) :
  exists day month,
    fake_admin_page t = (dashboard_text day month, after_draws 2 t)
    /\ (1 <= day <= 28)%N
    /\ (1 <= month <= 9)%N.
Proof.
  unfold fake_admin_page.
  pose proof (randint_range 1 28 t ltac:(lia)) as Hday.
  assert (Ht1 : snd (randint 1 28 t) = advance t) by reflexivity.
  destruct (randint 1 28 t) as [day t1]. simpl in Hday, Ht1. subst t1.
  pose proof (randint_range 1 9 (advance t) ltac:(lia)) as Hmonth.
  assert (Ht2 : snd (randint 1 9 (advance t)) = advance (advance t)) by reflexivity.
  destruct (randint 1 9 (advance t)) as [month t2]. simpl in Hmonth, Ht2. subst t2.
  exists day, month. repeat split; try assumption; lia.
Qed.

End BaitFacts.

(** ** More on the shell session *)
Module SessionShape.

Import Text Ssh Reading SessionTerms ReFacts SignatureMeaning SessionFacts.

Local Arguments existsb : simpl never.

(** *** Trimming *)

Lemma lstrip_clean (s : string) : clean_head (lstrip s).
Proof.
  induction s as [|c s IH]; simpl; [exact I|].
  destruct (isspace c) eqn:E; [exact IH | exact E].
Qed.

Lemma lstrip_fixed (s : string) : clean_head s -> lstrip s = s.
Proof. destruct s as [|c s]; simpl; [reflexivity|]. now intros ->. Qed.

Lemma rstrip_clean (s : string) : clean_head s -> clean_head (rstrip s).
Proof.
  destruct s as [|c s]; simpl; [auto|]. intros Hc.
  destruct (rstrip s); [rewrite Hc|]; exact Hc.
Qed.

Lemma rstrip_idempotent (s : string) : rstrip (rstrip s) = rstrip s.
Proof.
  induction s as [|c s IH]; simpl; [reflexivity|].
  destruct (rstrip s) as [|d t] eqn:E.
  - destruct (isspace c) eqn:Ec; simpl; [reflexivity|]. now rewrite Ec.
  - change (rstrip (String c (String d t)))
      with (match rstrip (String d t) with
            | EmptyString => if isspace c then EmptyString else String c EmptyString
            | String x y => String c (String x y)
            end).
    now rewrite IH.
Qed.

Lemma strip_idempotent (s : string) : strip (strip s) = strip s.
Proof.
  unfold strip.
  rewrite (lstrip_fixed (rstrip (lstrip s)))
    by apply rstrip_clean, lstrip_clean.
  apply rstrip_idempotent.
Qed.

(** *** The line loop, one iteration at a time *)

Lemma line_loop_enough (ip : string) (fuel : nat) :
  forall (buffer : string) (clock : nat -> string) (more : nat),
    (String.length buffer <= fuel)%nat ->
    line_loop (fuel + more) ip buffer clock = line_loop fuel ip buffer clock.
Proof.
  induction fuel as [|fuel IH]; intros buffer clock more Hlen.
  - destruct buffer; [|simpl in Hlen; lia].
    destruct more; reflexivity.
  - simpl. destruct (has_line buffer) eqn:Hline; [|reflexivity].
    pose proof (partition_shorter buffer (has_line_nonempty _ Hline)) as Hshort.
    destruct (partition newline buffer) as [[line found] rest]. simpl in Hshort.
    rewrite !IH by lia. reflexivity.
Qed.

Lemma process_lines_fuel (ip buffer : string) (clock : nat -> string) (fuel : nat) :
  (String.length buffer <= fuel)%nat ->
  line_loop fuel ip buffer clock = process_lines ip buffer clock.
Proof.
  intros H. unfold process_lines.
  replace fuel with (String.length buffer + (fuel - String.length buffer))%nat by lia.
  now apply line_loop_enough.
Qed.

(** One iteration of the line loop. *)
Lemma process_lines_step (ip buffer : string) (clock : nat -> string) :
  process_lines ip buffer clock
  = if has_line buffer then
      let '(line, _, rest) := partition newline buffer in
      let command := strip line in
      if String.eqb command "" then
        '(acts, out) ← process_lines ip rest clock;
        Some (prompt :: acts, out)
      else if existsb (String.eqb command) EXIT_KEYWORDS then
        Some (LogCommand (clock O) ip command :: logout_sequence, LoggedOut)
      else
        '(acts, out) ← process_lines ip rest (fun i => clock (S i));
        Some (LogCommand (clock O) ip command :: Send (reply command)
                :: prompt :: acts, out)
    else Some ([], Drained buffer clock).
Proof.
  unfold process_lines at 1.
  destruct (String.length buffer) as [|n] eqn:Hlen.
  - destruct buffer; [reflexivity | discriminate].
  - simpl. destruct (has_line buffer) eqn:Hline; [|reflexivity].
    pose proof (partition_shorter buffer (has_line_nonempty _ Hline)) as Hshort.
    destruct (partition newline buffer) as [[line found] rest]. simpl in Hshort.
    rewrite !process_lines_fuel by lia. reflexivity.
Qed.

Lemma process_lines_total (ip buffer : string) (clock : nat -> string) :
  exists r, process_lines ip buffer clock = Some r.
Proof. apply line_loop_total. lia. Qed.

(** Induction over the iterations of the line loop. *)
Lemma buffer_induction (P : string -> Prop) :
  (forall buffer,
      (forall shorter,
          (String.length shorter < String.length buffer)%nat -> P shorter) ->
      P buffer) ->
  forall buffer, P buffer.
Proof.
  intros Hstep buffer.
  remember (String.length buffer) as n eqn:Hn.
  revert buffer Hn. induction n as [n IH] using lt_wf_ind.
  intros buffer ->. apply Hstep. intros shorter Hlt. now apply (IH _ Hlt).
Qed.

Lemma turns_app (ip : string) (a b : list action) :
  turns ip a -> turns ip b -> turns ip (a ++ b)%list.
Proof. induction 1; intros Hb; simpl; [assumption | |]; constructor; auto. Qed.

(** What the line loop leaves behind. *)
Lemma process_lines_shape (ip : string) :
  forall (buffer : string) (clock : nat -> string) acts out,
    process_lines ip buffer clock = Some (acts, out) ->
    match out with
    | Drained rest _ => turns ip acts /\ has_line rest = false
    | LoggedOut =>
        exists body time command,
          acts = (body ++ LogCommand time ip command :: logout_sequence)%list
          /\ turns ip body /\ In command EXIT_KEYWORDS
    end.
Proof.
  intros buffer. induction buffer as [buffer IH] using buffer_induction.
  intros clock acts out. rewrite process_lines_step.
  destruct (has_line buffer) eqn:Hline.
  - pose proof (partition_shorter buffer (has_line_nonempty _ Hline)) as Hshort.
    destruct (partition newline buffer) as [[line found] rest]. simpl in Hshort.
    cbv zeta.
    destruct (String.eqb_spec (strip line) "") as [Hblank|Hcmd].
    + destruct (process_lines ip rest clock) as [[acts' out']|] eqn:E;
        simpl; [|discriminate].
      intros [= <- <-]. specialize (IH rest Hshort _ _ _ E).
      destruct out'.
      * destruct IH as [Hturns Hrest]. split; [now constructor|exact Hrest].
      * destruct IH as (body & t & c & -> & Hturns & Hc).
        exists (prompt :: body), t, c. repeat split; [now constructor|exact Hc].
    + destruct (existsb (String.eqb (strip line)) EXIT_KEYWORDS) eqn:Hexit.
      * intros [= <- <-]. exists [], (clock O), (strip line).
        repeat split; [constructor|].
        unfold EXIT_KEYWORDS in *. apply existsb_exists in Hexit as (k & Hk & Heq).
        apply String.eqb_eq in Heq. now subst.
      * destruct (process_lines ip rest (fun i => clock (S i)))
          as [[acts' out']|] eqn:E; simpl; [|discriminate].
        intros [= <- <-]. specialize (IH rest Hshort _ _ _ E).
        assert (Hturn : forall tail, turns ip tail ->
                   turns ip (LogCommand (clock O) ip (strip line)
                               :: Send (reply (strip line)) :: prompt :: tail))
          by (intros tail Ht; constructor;
              [exact Hcmd | apply strip_idempotent | exact Hexit | exact Ht]).
        destruct out'.
        -- destruct IH as [Hturns Hrest]. split; [now apply Hturn|exact Hrest].
        -- destruct IH as (body & t & c & -> & Hturns & Hc).
           exists (LogCommand (clock O) ip (strip line)
                     :: Send (reply (strip line)) :: prompt :: body), t, c.
           repeat split; [now apply Hturn|exact Hc].
  - intros [= <- <-]. split; [constructor|exact Hline].
Qed.

(** What the receive loop produces. *)
Lemma recv_loop_turns (ip : string) (input : list received) :
  forall (buffer : string) (clock : nat -> string) acts s,
    recv_loop ip buffer clock input = Some (acts, s) ->
    (input = [] -> s = Awaiting buffer /\ acts = []) /\
    (input <> [] ->
     exists body tail, acts = (body ++ tail)%list /\ turns ip body /\ ending ip s tail).
Proof.
  induction input as [|x input IH]; intros buffer clock acts s; simpl.
  - intros [= <- <-]. split; [auto|congruence].
  - intros H. split; [discriminate|]. intros _.
    destruct x.
    + destruct (process_lines ip (buffer ++ decoded) clock) as [[acts1 out]|] eqn:E;
        simpl in H; [|discriminate].
      pose proof (process_lines_shape _ _ _ _ _ E) as Hshape.
      destruct out as [rest clock'|].
      * destruct Hshape as [Hturns Hrest].
        destruct (recv_loop ip rest clock' input) as [[acts2 s2]|] eqn:E2;
          simpl in H; [|discriminate].
        injection H as <- <-.
        destruct (IH _ _ _ _ E2) as [Hnil Hcons].
        destruct input as [|y input].
        -- destruct (Hnil eq_refl) as [-> ->].
           exists acts1, []. rewrite app_nil_r. repeat split; assumption.
        -- destruct (Hcons ltac:(discriminate)) as (body & tail & -> & Hb & He).
           exists (acts1 ++ body)%list, tail. rewrite app_assoc.
           repeat split; [now apply turns_app|exact He].
      * injection H as <- <-.
        destruct Hshape as (body & t & c & -> & Hturns & Hc).
        exists body, (LogCommand t ip c :: logout_sequence).
        repeat split; [exact Hturns|]. right. eauto.
    + injection H as <- <-. exists [], [CloseChannel; CloseTransport].
      repeat split; [constructor|]. now left.
    + injection H as <- <-. exists [], [CloseChannel; CloseTransport].
      repeat split; [constructor|]. now left.
Qed.

Lemma reply_sendable (command : string) : In (reply command) SENDABLE.
Proof.
  unfold reply, SENDABLE.
  destruct (String.eqb command "ls"); [simpl; tauto|].
  destruct (String.eqb command "whoami"); [simpl; tauto|].
  destruct (String.eqb command "pwd"); simpl; tauto.
Qed.

Lemma turns_sendable (ip : string) (acts : list action) :
  turns ip acts -> forall data, In (Send data) acts -> In data SENDABLE.
Proof.
  induction 1 as [|acts _ IH|time command acts _ _ _ _ IH]; intros data Hin.
  - destruct Hin.
  - destruct Hin as [[= <-]|Hin]; [simpl; tauto | now apply IH].
  - destruct Hin as [[=]|[[= <-]|[[= <-]|Hin]]];
      [apply reply_sendable | simpl; tauto | now apply IH].
Qed.

(** The shape of every session, with or without carriage returns: after
    the banner and the first prompt come turns (a prompt alone, or a log
    entry under the client's address with a trimmed, non-empty command,
    its canned reply and a prompt), then nothing, the two closes, or the
    log entry of an exit keyword with the logout banner and the two
    closes.  Everything written to the channel is one of seven fixed texts:
    nothing the client typed is ever sent back. *)
Lemma session_trace_shape
    (ip : string) (clock : nat -> string) (input : list received) :
  exists acts s body tail,
    handle_client true true ip clock input = Some (acts, s)
    /\ acts = (banner :: prompt :: body ++ tail)%list
    /\ turns ip body
    /\ ending ip s tail
    /\ forall data, In (Send data) acts -> In data SENDABLE.
Proof.
  unfold handle_client. simpl negb. cbv iota.
  destruct (recv_loop_total ip input "" clock) as [[acts s] E]. rewrite E. simpl.
  destruct (recv_loop_turns ip input "" clock acts s E) as [Hnil Hcons].
  assert (Hsend : forall body tail,
             turns ip body -> ending ip s tail ->
             forall data, In (Send data) (banner :: prompt :: body ++ tail)%list ->
                          In data SENDABLE).
  { intros body tail Hb He data [[= <-]|[[= <-]|Hin]]; [simpl; tauto..|].
    apply in_app_or in Hin as [Hin|Hin]; [now apply (turns_sendable ip body)|].
    destruct s as [buffer|].
    - destruct He as [-> _]. destruct Hin.
    - destruct He as [->|(t & c & _ & ->)].
      + destruct Hin as [[=]|[[=]|[]]].
      + destruct Hin as [[=]|[[= <-]|[[=]|[[=]|[]]]]]. simpl. tauto. }
  destruct input as [|x input].
  - destruct (Hnil eq_refl) as [-> ->].
    exists [banner; prompt], (Awaiting ""), [], [].
    assert (He : ending ip (Awaiting "") []) by (now split).
    split; [reflexivity|]. split; [reflexivity|]. split; [constructor|].
    split; [exact He|]. intros data [[= <-]|[[= <-]|[]]]; simpl; tauto.
  - destruct (Hcons ltac:(discriminate)) as (body & tail & -> & Hb & He).
    exists (banner :: prompt :: body ++ tail)%list, s, body, tail.
    repeat split; try assumption. now apply Hsend.
Qed.

(** *** How the input is cut into chunks *)

Lemma contains_char_cons (c x : ascii) (s : string) :
  contains (String c "") (String x s) = Ascii.eqb c x || contains (String c "") s.
Proof.
  change (contains (String c "") (String x s))
    with ((Ascii.eqb c x && true) || contains (String c "") s).
  now rewrite andb_true_r.
Qed.

Lemma contains_char_append (c : ascii) (a b : string) :
  contains (String c "") (a ++ b)
  = contains (String c "") a || contains (String c "") b.
Proof.
  induction a as [|x a IH]; [reflexivity|].
  rewrite append_cons, !contains_char_cons, IH. now rewrite orb_assoc.
Qed.

(** [partition] either finds the first newline or returns the text whole. *)
Lemma partition_spec (s : string) :
  match partition newline s with
  | (line, true, rest) => s = line ++ nl ++ rest /\ contains nl line = false
  | (line, false, rest) => line = s /\ rest = "" /\ contains nl s = false
  end.
Proof.
  induction s as [|c s IH]; [repeat split|].
  simpl partition. destruct (Ascii.eqb_spec c newline) as [->|Hne].
  - now split.
  - destruct (partition newline s) as [[line found] rest].
    assert (Hc : Ascii.eqb newline c = false)
      by (apply Ascii.eqb_neq; congruence).
    unfold nl in *. destruct found.
    + destruct IH as [-> Hline]. split; [reflexivity|].
      now rewrite contains_char_cons, Hc.
    + destruct IH as (-> & -> & Hs). repeat split.
      now rewrite contains_char_cons, Hc.
Qed.

Lemma partition_append (s b : string) :
  contains nl s = true ->
  partition newline (s ++ b)
  = let '(line, found, rest) := partition newline s in (line, found, rest ++ b).
Proof.
  induction s as [|c s IH]; [discriminate|].
  unfold nl. rewrite contains_char_cons, append_cons. simpl partition.
  destruct (Ascii.eqb_spec c newline) as [->|Hne]; [reflexivity|].
  assert (Hc : Ascii.eqb newline c = false) by (apply Ascii.eqb_neq; congruence).
  rewrite Hc. simpl. intros Hs. rewrite (IH Hs).
  now destruct (partition newline s) as [[line found] rest].
Qed.

Lemma has_line_without_cr (s : string) :
  contains cr s = false -> has_line s = contains nl s.
Proof. unfold has_line, cr. intros ->. apply orb_false_r. Qed.

Lemma bind_pass (o : option (list action * line_exit)) :
  ('(acts, out) ← o; Some (([] : list action) ++ acts, out)%list) = o.
Proof. now destruct o as [[acts out]|]. Qed.

(** Appending to a buffer without carriage returns: the lines already
    complete are processed as before, and the loop goes on with what was
    left followed by the new text. *)
Lemma process_lines_extend (ip b : string) :
  contains cr b = false ->
  forall (s : string) (clock : nat -> string),
    contains cr s = false ->
    match process_lines ip s clock with
    | Some (acts1, Drained rest clock') =>
        contains cr rest = false
        /\ process_lines ip (s ++ b) clock
           = '(acts2, out) ← process_lines ip (rest ++ b) clock';
             Some ((acts1 ++ acts2)%list, out)
    | Some (acts1, LoggedOut) =>
        process_lines ip (s ++ b) clock = Some (acts1, LoggedOut)
    | None => True
    end.
Proof.
  intros Hb s. induction s as [s IH] using buffer_induction. intros clock Hs.
  rewrite (process_lines_step ip s).
  destruct (has_line s) eqn:Hline.
  - rewrite has_line_without_cr in Hline by exact Hs.
    pose proof (partition_shorter s) as Hshort.
    pose proof (partition_spec s) as Hspec.
    assert (Hstep : process_lines ip (s ++ b) clock = _)
      by apply process_lines_step.
    rewrite has_line_without_cr in Hstep
      by (unfold cr; rewrite contains_char_append; unfold cr in Hs, Hb;
          now rewrite Hs, Hb).
    unfold nl in Hstep. rewrite contains_char_append in Hstep.
    fold nl in Hstep. rewrite Hline in Hstep. simpl orb in Hstep. cbv iota in Hstep.
    rewrite (partition_append s b Hline) in Hstep.
    destruct (partition newline s) as [[line found] rest].
    assert (Hlt : (String.length rest < String.length s)%nat)
      by (apply Hshort; intros ->; discriminate).
    assert (Hrest : contains cr rest = false).
    { destruct found.
      - destruct Hspec as [-> _]. unfold cr in *.
        rewrite !contains_char_append in Hs.
        now apply orb_false_iff in Hs as [_ Hs], Hs as [_ Hs].
      - now destruct Hspec as (_ & -> & _). }
    cbv zeta in Hstep. cbv zeta.
    specialize (IH rest Hlt).
    destruct (String.eqb (strip line) "").
    + specialize (IH clock Hrest).
      destruct (process_lines ip rest clock) as [[acts1 out1]|]; [|exact I].
      simpl. destruct out1 as [rest' clock'|].
      * destruct IH as [Hcr IH]. split; [exact Hcr|].
        rewrite Hstep, IH.
        now destruct (process_lines ip (rest' ++ b) clock') as [[acts2 out2]|].
      * rewrite Hstep, IH. reflexivity.
    + destruct (existsb (String.eqb (strip line)) EXIT_KEYWORDS).
      * exact Hstep.
      * specialize (IH (fun i => clock (S i)) Hrest).
        destruct (process_lines ip rest (fun i => clock (S i)))
          as [[acts1 out1]|]; [|exact I].
        simpl. destruct out1 as [rest' clock'|].
        -- destruct IH as [Hcr IH]. split; [exact Hcr|].
           rewrite Hstep, IH.
           now destruct (process_lines ip (rest' ++ b) clock') as [[acts2 out2]|].
        -- rewrite Hstep, IH. reflexivity.
  - split; [exact Hs|]. symmetry. apply bind_pass.
Qed.

Lemma process_lines_keeps_cr_free (ip s : string) (clock : nat -> string)
    acts rest clock' :
  contains cr s = false ->
  process_lines ip s clock = Some (acts, Drained rest clock') ->
  contains cr rest = false.
Proof.
  intros Hs E.
  pose proof (process_lines_extend ip "" eq_refl s clock Hs) as H.
  rewrite E in H. apply H.
Qed.

(** Two chunks in a row can be received as one. *)
Lemma recv_loop_merge (ip buffer a b : string) (clock : nat -> string)
    (post : list received) :
  contains cr buffer = false -> contains cr a = false -> contains cr b = false ->
  recv_loop ip buffer clock (Data a :: Data b :: post)
  = recv_loop ip buffer clock (Data (a ++ b) :: post).
Proof.
  intros Hbuf Ha Hb.
  assert (Hs : contains cr (buffer ++ a) = false)
    by (unfold cr in *; now rewrite contains_char_append, Hbuf, Ha).
  pose proof (process_lines_extend ip b Hb (buffer ++ a) clock Hs) as H.
  change (recv_loop ip buffer clock (Data (a ++ b) :: post))
    with ('(acts, out) ← process_lines ip (buffer ++ (a ++ b)) clock;
          match out with
          | LoggedOut => Some (acts, Terminated)
          | Drained buffer' clock' =>
              '(acts', s) ← recv_loop ip buffer' clock' post;
              Some ((acts ++ acts')%list, s)
          end).
  change (recv_loop ip buffer clock (Data a :: Data b :: post))
    with ('(acts, out) ← process_lines ip (buffer ++ a) clock;
          match out with
          | LoggedOut => Some (acts, Terminated)
          | Drained buffer' clock' =>
              '(acts', s) ← ('(acts2, out2) ← process_lines ip (buffer' ++ b) clock';
                            match out2 with
                            | LoggedOut => Some (acts2, Terminated)
                            | Drained buffer2 clock2 =>
                                '(acts3, s) ← recv_loop ip buffer2 clock2 post;
                                Some ((acts2 ++ acts3)%list, s)
                            end);
              Some ((acts ++ acts')%list, s)
          end).
  rewrite <- append_assoc.
  destruct (process_lines ip (buffer ++ a) clock) as [[acts1 out1]|] eqn:E1.
  - destruct out1 as [rest clock'|].
    + destruct H as [_ ->]. simpl.
      destruct (process_lines ip (rest ++ b) clock') as [[acts2 out2]|];
        [|reflexivity].
      simpl. destruct out2 as [rest2 clock2|]; [|reflexivity].
      destruct (recv_loop ip rest2 clock2 post) as [[acts3 s3]|]; [|reflexivity].
      simpl. now rewrite app_assoc.
    + rewrite H. reflexivity.
  - destruct (process_lines_total ip (buffer ++ a) clock) as [r Hr]. congruence.
Qed.

Lemma recv_loop_same_after (ip : string) (pre : list received) :
  forall (buffer : string) (clock : nat -> string) (tail1 tail2 : list received),
    contains cr buffer = false ->
    no_carriage_return pre ->
    (forall buffer' clock',
        contains cr buffer' = false ->
        recv_loop ip buffer' clock' tail1 = recv_loop ip buffer' clock' tail2) ->
    recv_loop ip buffer clock (pre ++ tail1)%list
    = recv_loop ip buffer clock (pre ++ tail2)%list.
Proof.
  induction pre as [|x pre IH]; intros buffer clock tail1 tail2 Hbuf Hpre Htail.
  - now apply Htail.
  - apply Forall_cons in Hpre as [Hx Hpre]. simpl.
    destruct x; [|reflexivity|reflexivity].
    assert (Hs : contains cr (buffer ++ decoded) = false)
      by (unfold cr in *; now rewrite contains_char_append, Hbuf, Hx).
    destruct (process_lines ip (buffer ++ decoded) clock) as [[acts out]|] eqn:E;
      [|reflexivity].
    simpl. destruct out as [rest clock'|]; [|reflexivity].
    rewrite (IH rest clock' tail1 tail2); auto.
    eapply process_lines_keeps_cr_free; eassumption.
Qed.

(** X19. A line split over several reads is handled like one that arrives
    whole.  Each read is decoded on its own and its text appended to the
    buffer; when none of the decoded texts holds a carriage return, a
    session that reads the text [a] and then the text [b] does exactly what
    it does when one read yields the text [a ++ b], whatever was read
    before and whatever is read after.  This is about the decoded texts,
    not the raw bytes: a character whose bytes are cut by the end of a read
    is decoded in neither part. *)
Theorem chunking_is_irrelevant
    (started accepted : bool) (ip : string) (clock : nat -> string)
    (pre : list received) (a b : string) (post : list received) :
  no_carriage_return (pre ++ Data a :: Data b :: post) ->
  handle_client started accepted ip clock (pre ++ Data a :: Data b :: post)
  = handle_client started accepted ip clock (pre ++ Data (a ++ b) :: post).
Proof.
  intros Hall. apply Forall_app in Hall as [Hpre Hrest].
  apply Forall_cons in Hrest as [Ha Hrest].
  apply Forall_cons in Hrest as [Hb _].
  unfold handle_client.
  destruct (negb started); [reflexivity|].
  destruct (negb accepted); [reflexivity|].
  rewrite (recv_loop_same_after ip pre "" clock
             (Data a :: Data b :: post) (Data (a ++ b) :: post));
    [reflexivity | reflexivity | exact Hpre |].
  intros buffer' clock' Hbuf. now apply recv_loop_merge.
Qed.

Lemma chunking_is_irrelevant_witness :
  let input := [ Data "who"; Data ("ami" ++ nl ++ "ex"); Data ("it" ++ nl) ] in
  no_carriage_return input
  /\ handle_client true true "203.0.113.7" (fun _ => "t") input
     = handle_client true true "203.0.113.7" (fun _ => "t")
         [ Data ("whoami" ++ nl ++ "ex"); Data ("it" ++ nl) ].
Proof.
  cbv zeta.
  assert (H : no_carriage_return
                ([] ++ Data "who" :: Data ("ami" ++ nl ++ "ex")
                    :: [Data ("it" ++ nl)]))
    by (repeat constructor).
  split; [exact H|].
  exact (chunking_is_irrelevant true true "203.0.113.7" (fun _ => "t")
           [] "who" ("ami" ++ nl ++ "ex") [Data ("it" ++ nl)] H).
Defined.

(** With a carriage return the cut matters: the same text gives one prompt
    more when the newline arrives in a read of its own. *)
Example carriage_return_then_newline :
  handle_client true true "203.0.113.7" (fun _ => "t") [ Data ("ls" ++ cr ++ nl) ]
  = Some ([ banner; prompt; LogCommand "t" "203.0.113.7" "ls";
            Send ("config.txt  users.db  backup.sql" ++ nl); prompt ],
          Awaiting "")
  /\ handle_client true true "203.0.113.7" (fun _ => "t")
       [ Data ("ls" ++ cr); Data nl ]
     = Some ([ banner; prompt; LogCommand "t" "203.0.113.7" "ls";
               Send ("config.txt  users.db  backup.sql" ++ nl); prompt; prompt ],
             Awaiting "").
Proof. split; reflexivity. Qed.

(** *** The session, line by line *)

Lemma partition_line (line rest : string) :
  contains nl line = false ->
  partition newline (line ++ nl ++ rest) = (line, true, rest).
Proof.
  induction line as [|c line IH]; intros H.
  - reflexivity.
  - unfold nl in H. rewrite contains_char_cons in H.
    apply orb_false_iff in H as [Hc Hline].
    rewrite append_cons. simpl partition.
    rewrite Ascii.eqb_sym, Hc, (IH Hline). reflexivity.
Qed.

Lemma has_line_line (line rest : string) : has_line (line ++ nl ++ rest) = true.
Proof.
  unfold has_line, nl. rewrite !contains_char_append.
  change (contains (String newline "") (String newline "")) with true.
  now rewrite orb_true_r.
Qed.

(** The iteration of the line loop on a buffer that starts with a whole
    line. *)
Lemma process_lines_line (ip line rest : string) (clock : nat -> string) :
  contains nl line = false ->
  process_lines ip (line ++ nl ++ rest) clock
  = if String.eqb (strip line) "" then
      '(acts, out) ← process_lines ip rest clock;
      Some (prompt :: acts, out)
    else if is_exit line then
      Some (LogCommand (clock O) ip (strip line) :: logout_sequence, LoggedOut)
    else
      '(acts, out) ← process_lines ip rest (fun i => clock (S i));
      Some (LogCommand (clock O) ip (strip line) :: Send (reply (strip line))
              :: prompt :: acts, out).
Proof.
  intros H.
  rewrite process_lines_step, has_line_line, (partition_line _ _ H). reflexivity.
Qed.

Lemma unlines_cons_append (line : string) (lines : list string) (rest : string) :
  unlines (line :: lines) ++ rest = line ++ nl ++ (unlines lines ++ rest).
Proof.
  change (unlines (line :: lines)) with (line ++ nl ++ unlines lines).
  now rewrite !append_assoc.
Qed.

(** Lines without an exit keyword are answered one by one, and the text
    after the last newline is left in the buffer. *)
Lemma process_lines_dialogue (ip rest : string) :
  has_line rest = false ->
  forall (lines : list string) (clock : nat -> string),
    Forall (fun l => contains nl l = false) lines ->
    Forall (fun l => is_exit l = false) lines ->
    exists clock',
      process_lines ip (unlines lines ++ rest) clock
      = Some (dialogue ip clock lines, Drained rest clock').
Proof.
  intros Hrest lines. induction lines as [|l ls IH]; intros clock Hnl Hne.
  - exists clock. change (unlines [] ++ rest) with rest.
    rewrite process_lines_step, Hrest. reflexivity.
  - apply Forall_cons in Hnl as [Hl Hnl]. apply Forall_cons in Hne as [He Hne].
    rewrite unlines_cons_append, (process_lines_line ip l _ clock Hl), He.
    cbn [dialogue]. unfold turn.
    destruct (String.eqb (strip l) "").
    + destruct (IH clock Hnl Hne) as [clock' ->]. now exists clock'.
    + destruct (IH (fun i => clock (S i)) Hnl Hne) as [clock' ->]. now exists clock'.
Qed.

Lemma exit_is_not_blank (line : string) :
  is_exit line = true -> String.eqb (strip line) "" = false.
Proof.
  unfold is_exit. intros H.
  destruct (String.eqb_spec (strip line) "") as [E|_]; [|reflexivity].
  rewrite E in H. vm_compute in H. discriminate.
Qed.

(** The first line that is an exit keyword ends the loop: the lines before
    it are answered, it is logged at the next reading of the clock, and
    what follows it is not looked at. *)
Lemma process_lines_exit (ip quit : string) (after : list string) (rest : string) :
  contains nl quit = false ->
  is_exit quit = true ->
  forall (before : list string) (clock : nat -> string),
    Forall (fun l => contains nl l = false) before ->
    Forall (fun l => is_exit l = false) before ->
    process_lines ip (unlines (before ++ quit :: after) ++ rest) clock
    = Some ((dialogue ip clock before
             ++ LogCommand (clock (commands before)) ip (strip quit)
                  :: logout_sequence)%list,
            LoggedOut).
Proof.
  intros Hq Hexit before. induction before as [|l ls IH]; intros clock Hnl Hne.
  - change (([] ++ quit :: after)%list) with (quit :: after).
    rewrite unlines_cons_append, (process_lines_line ip quit _ clock Hq).
    now rewrite (exit_is_not_blank _ Hexit), Hexit.
  - apply Forall_cons in Hnl as [Hl Hnl]. apply Forall_cons in Hne as [He Hne].
    change (((l :: ls) ++ quit :: after)%list) with (l :: (ls ++ quit :: after))%list.
    rewrite unlines_cons_append, (process_lines_line ip l _ clock Hl), He.
    cbn [dialogue commands]. unfold turn.
    destruct (String.eqb (strip l) "").
    + now rewrite (IH clock Hnl Hne).
    + now rewrite (IH (fun i => clock (S i)) Hnl Hne).
Qed.

Lemma heard_without_cr (input : list received) :
  no_carriage_return input -> contains cr (heard input) = false.
Proof.
  induction input as [|x input IH]; intros H; [reflexivity|].
  apply Forall_cons in H as [Hx H].
  destruct x; [|reflexivity|reflexivity].
  cbn [heard]. unfold cr in *. now rewrite contains_char_append, Hx, IH.
Qed.

(** Without carriage returns the receive loop does what one pass of the
    line loop does on everything heard, and then closes if the peer hung
    up. *)
Lemma recv_loop_heard (ip : string) (input : list received) :
  forall (buffer : string) (clock : nat -> string),
    has_line buffer = false ->
    no_carriage_return input ->
    recv_loop ip buffer clock input
    = '(acts, out) ← process_lines ip (buffer ++ heard input) clock;
      match out with
      | LoggedOut => Some (acts, Terminated)
      | Drained rest _ =>
          if hangs_up input
          then Some ((acts ++ [CloseChannel; CloseTransport])%list, Terminated)
          else Some (acts, Awaiting rest)
      end.
Proof.
  assert (Hidle : forall buffer clock,
             has_line buffer = false ->
             process_lines ip (buffer ++ "") clock
             = Some ([], Drained buffer clock)).
  { intros buffer clock Hb. now rewrite append_nil_r, process_lines_step, Hb. }
  induction input as [|x input IH]; intros buffer clock Hbuf Hin.
  - cbn [heard hangs_up recv_loop]. now rewrite (Hidle _ _ Hbuf).
  - apply Forall_cons in Hin as [Hx Hin].
    destruct x as [decoded| |];
      [|cbn [heard hangs_up recv_loop]; now rewrite (Hidle _ _ Hbuf)..].
    assert (Hcr : contains cr buffer = false)
      by (unfold has_line in Hbuf; now apply orb_false_iff in Hbuf as [_ Hbuf]).
    assert (Hs : contains cr (buffer ++ decoded) = false)
      by (unfold cr in *; now rewrite contains_char_append, Hcr, Hx).
    pose proof (process_lines_extend ip (heard input) (heard_without_cr _ Hin)
                  (buffer ++ decoded) clock Hs) as Hext.
    cbn [heard hangs_up recv_loop]. rewrite <- append_assoc.
    destruct (process_lines ip (buffer ++ decoded) clock) as [[acts1 out1]|] eqn:E1.
    + destruct out1 as [rest clock'|].
      * destruct Hext as [_ ->].
        pose proof (process_lines_shape ip _ _ _ _ E1) as [_ Hrest].
        simpl. rewrite (IH rest clock' Hrest Hin).
        destruct (process_lines ip (rest ++ heard input) clock') as [[acts2 out2]|];
          [|reflexivity].
        simpl. destruct out2; [|reflexivity].
        destruct (hangs_up input); simpl; [|reflexivity].
        now rewrite app_assoc.
      * rewrite Hext. reflexivity.
    + destruct (process_lines_total ip (buffer ++ decoded) clock) as [r Hr].
      congruence.
Qed.

(** Every text is a sequence of lines, each ended by its newline, followed
    by a last part without newline. *)
Lemma every_text_splits (text : string) :
  exists lines rest,
    text = unlines lines ++ rest
    /\ Forall (fun l => contains nl l = false) lines
    /\ contains nl rest = false.
Proof.
  induction text as [text IH] using buffer_induction.
  pose proof (partition_spec text) as Hspec.
  destruct (partition newline text) as [[line found] tail].
  destruct found.
  - destruct Hspec as [-> Hline].
    destruct (IH tail) as (lines & rest & -> & Hlines & Hrest).
    { rewrite !length_append. simpl. lia. }
    exists (line :: lines), rest.
    split; [now rewrite unlines_cons_append|].
    split; [now constructor | exact Hrest].
  - destruct Hspec as (_ & _ & Hnl). exists [], text.
    split; [reflexivity|]. split; [constructor | exact Hnl].
Qed.

(** X18. The session answers the lines of what it hears, in order, and
    ends for the reason the input gives.  Take an accepted session whose
    decoded chunks hold no carriage return, and cut the text heard before
    any hang-up, however it was spread over the reads, into its lines (each
    ended by a newline) and the unfinished last part.
    If no line is an exit keyword, the trace is the banner, a prompt, and
    one turn per line in order: a prompt for a blank line; for a command
    its log entry (the trimmed line, under the client's address, at the
    next reading of the clock), its canned reply and a prompt.  Then, if
    the peer hung up or the read failed, the two closes follow and the
    session is over; otherwise nothing follows and the session waits with
    exactly the unfinished part in its buffer.  The unfinished part is
    never run or logged.
    If some line is an exit keyword, the lines before the first such line
    get their turns, that line is logged, the logout banner and the two
    closes follow, and the session is over: the lines after it and a later
    hang-up leave no trace. *)
Theorem session_answers_each_line
    (ip : string) (clock : nat -> string) (input : list received)
    (lines : list string) (rest : string) :
  no_carriage_return input ->
  heard input = unlines lines ++ rest ->
  Forall (fun l => contains nl l = false) lines ->
  contains nl rest = false ->
  (Forall (fun l => is_exit l = false) lines ->
   handle_client true true ip clock input
   = if hangs_up input
     then Some ((banner :: prompt :: dialogue ip clock lines
                 ++ [CloseChannel; CloseTransport])%list,
                Terminated)
     else Some ((banner :: prompt :: dialogue ip clock lines)%list,
                Awaiting rest))
  /\ (forall before quit after,
        lines = (before ++ quit :: after)%list ->
        Forall (fun l => is_exit l = false) before ->
        is_exit quit = true ->
        handle_client true true ip clock input
        = Some ((banner :: prompt :: dialogue ip clock before
                 ++ LogCommand (clock (commands before)) ip (strip quit)
                      :: logout_sequence)%list,
                Terminated)).
Proof.
  intros Hcr Hheard Hlines Hrest.
  assert (Hrun : handle_client true true ip clock input
                 = '(acts, s) ← ('(acts, out) ←
                                   process_lines ip (unlines lines ++ rest) clock;
                                 match out with
                                 | LoggedOut => Some (acts, Terminated)
                                 | Drained rest _ =>
                                     if hangs_up input
                                     then Some ((acts ++ [CloseChannel;
                                                          CloseTransport])%list,
                                                Terminated)
                                     else Some (acts, Awaiting rest)
                                 end);
                   Some (banner :: prompt :: acts, s)).
  { unfold handle_client. simpl negb. cbv iota.
    rewrite (recv_loop_heard ip input "" clock eq_refl Hcr).
    change ("" ++ heard input) with (heard input). now rewrite Hheard. }
  assert (Hquiet : has_line rest = false).
  { pose proof (heard_without_cr _ Hcr) as H. rewrite Hheard in H.
    unfold cr in H. rewrite contains_char_append in H.
    apply orb_false_iff in H as [_ H].
    unfold has_line. now rewrite Hrest, H. }
  split.
  - intros Hne.
    destruct (process_lines_dialogue ip rest Hquiet lines clock Hlines Hne)
      as [clock' E].
    rewrite Hrun, E. simpl. now destruct (hangs_up input).
  - intros before quit after -> Hne Hexit.
    apply Forall_app in Hlines as [Hbefore Hafter].
    apply Forall_cons in Hafter as [Hq _].
    rewrite Hrun, (process_lines_exit ip quit after rest Hq Hexit before clock
                     Hbefore Hne).
    reflexivity.
Qed.

Lemma session_answers_each_line_witness :
  let clock := fun i : nat => match i with O => "12:00" | _ => "12:01" end in
  let input := [ Data "who"; Data ("ami" ++ nl ++ "  " ++ nl ++ "ex");
                 Data ("it" ++ nl ++ "ls" ++ nl ++ "pw"); EndOfStream ] in
  no_carriage_return input
  /\ heard input = unlines ["whoami"; "  "; "exit"; "ls"] ++ "pw"
  /\ handle_client true true "203.0.113.7" clock input
     = Some ([ banner; prompt;
               LogCommand "12:00" "203.0.113.7" "whoami"; Send ("root" ++ nl);
               prompt;
               prompt;
               LogCommand "12:01" "203.0.113.7" "exit"; Send ("logout" ++ nl);
               CloseChannel; CloseTransport ],
             Terminated).
Proof.
  cbv zeta.
  assert (H1 : no_carriage_return
                 [ Data "who"; Data ("ami" ++ nl ++ "  " ++ nl ++ "ex");
                   Data ("it" ++ nl ++ "ls" ++ nl ++ "pw"); EndOfStream ])
    by (repeat constructor).
  assert (H2 : Forall (fun l => contains nl l = false) ["whoami"; "  "; "exit"; "ls"])
    by (repeat constructor).
  assert (H3 : Forall (fun l => is_exit l = false) ["whoami"; "  "])
    by (repeat constructor).
  split; [exact H1|]. split; [reflexivity|].
  exact (proj2 (session_answers_each_line "203.0.113.7"
                  (fun i : nat => match i with O => "12:00" | _ => "12:01" end)
                  _ ["whoami"; "  "; "exit"; "ls"] "pw" H1 eq_refl H2 eq_refl)
               ["whoami"; "  "] "exit" ["ls"] eq_refl H3 eq_refl).
Defined.



End SessionShape.

(** ** The classifier's labels on what the honeypot logs *)
Module ClassifierFacts.

Import Text Web Reading LogTerms Classifier ScorerMeaning LogFacts.

(** The label given to the tags of one scored interaction. *)
Lemma label_of_analysis (fa : gmap string Z) (ip path data_str : string) :
  generate_labels
    (Some [TagList (snd (snd (analyze_request fa ip path data_str)))])
  = [ if is_sqli data_str then "SQLi"
      else if is_xss data_str then "XSS"
      else if on_admin_path path && (5 <=? attempts fa ip) then "Bruteforce"
      else "Normal" ].
Proof.
  rewrite analyze_request_cases. cbv zeta.
  destruct (is_sqli data_str), (is_xss data_str),
    (on_admin_path path && (5 <=? attempts fa ip)), (has_scanner_marker path);
    reflexivity.
Qed.

(** X21. The weak labels never say "Scanner" for what the risk scorer
    tagged: [generate_labels] looks for the tag "Scanner-Probe", which
    [analyze_request] never gives, so an interaction is labelled SQLi, XSS
    or Bruteforce after its first such tag and "Normal" otherwise, a
    scanner probe included. *)
Theorem scanner_probes_are_labelled_normal
    (fa : gmap string Z) (ip path data_str : string) :
  let tags := snd (snd (analyze_request fa ip path data_str)) in
  exists label,
    generate_labels (Some [TagList tags]) = [label]
    /\ In label ["SQLi"; "XSS"; "Bruteforce"; "Normal"]
    /\ label <> "Scanner"
    /\ (tags = ["Scanner"] -> label = "Normal").
Proof.
  cbv zeta. rewrite label_of_analysis. eexists. split; [reflexivity|].
  rewrite analyze_request_cases. cbv zeta.
  destruct (is_sqli data_str), (is_xss data_str),
    (on_admin_path path && (5 <=? attempts fa ip)), (has_scanner_marker path);
    vm_compute; repeat split; try discriminate; tauto.
Qed.

End ClassifierFacts.
